(** * vectorColcks: the step-timing agent of a godog test run

    Shallow embedding of the two versions of [VectorClockAgent] found in the
    repository:

    - [InMemory]: [src/main.go], timings kept in two [sync.Map]s;
    - [Sqlite]:   [src/unnamed/part_000], the same agent with every duration
      also written to the [step_timings] table of an SQLite file.

    State is passed explicitly.  Everything an operation reads from outside
    the agent is an argument of its model: the reading of the clock
    ([time.Now()]), and for the SQLite version the outcome the driver reports
    for a statement.  What an operation prints is returned as a list with one
    string per [fmt.Printf] / [fmt.Println] call. *)

From Stdlib Require Import ZArith Lia Ascii.
From stdpp Require Import base tactics option list strings pretty gmap.

Local Open Scope Z_scope.

(** ** The parts of the Go runtime the agent relies on *)

Module Go.

(** [uint64] arithmetic wraps modulo 2^64. *)
Definition uint64_wrap (n : N) : N := (n mod 2 ^ 64)%N.

(** [atomic.AddUint64(&addr, delta)]: the new value, which is also what the
    call returns. *)
Definition atomic_AddUint64 (addr delta : N) : N := uint64_wrap (addr + delta).

(** [int64] arithmetic wraps into [-2^63, 2^63). *)
Definition int64_wrap (z : Z) : Z := (z + 2 ^ 63) mod 2 ^ 64 - 2 ^ 63.

(** [time.Duration] is an [int64] count of nanoseconds. *)
Definition minDuration : Z := - 2 ^ 63.
Definition maxDuration : Z := 2 ^ 63 - 1.

(** [time.subMono]: the difference of two monotonic clock readings,
    saturated to the range of a [Duration]. *)
Definition subMono (t u : Z) : Z :=
  let d := int64_wrap (t - u) in
  if (d <? 0) && (t >? u) then maxDuration
  else if (d >? 0) && (t <? u) then minDuration
  else d.

(** [time.Since(t)] for a [t] obtained from [time.Now()]: such a value
    carries a monotonic reading, and [Since] subtracts it from the current
    one.  A [time.Time] is modelled by that reading, in nanoseconds. *)
Definition Since (now t : Z) : Z := subMono now t.

(** [Duration.Milliseconds]: [int64(d) / 1e6], truncated towards zero. *)
Definition Milliseconds (d : Z) : Z := d ÷ 1000000.

(** The newline character of the format strings. *)
Definition nl : string := String "010"%char "".

End Go.

(** ** Strings *)




(** No character of [s] is the separator ["-"]. *)
Fixpoint no_dash (s : string) : Prop :=
  match s with
  | EmptyString => True
  | String c s' => c ≠ "-"%char ∧ no_dash s'
  end.

(** [fmt.Sprintf("%s-%s-%d", scenarioName, stepText, count)] with a [uint64]
    [count]: [%d] prints it in decimal. *)
Definition sprintf_stepID (scenarioName stepText : string) (count : N) : string :=
  scenarioName +:+ "-" +:+ stepText +:+ "-" +:+ pretty count.

(** ** [src/main.go]: the in-memory agent *)

Module InMemory.

(** The two [sync.Map]s only ever receive [string] keys, [time.Time] values
    ([startTimes]) and [time.Duration] values ([durations]); they are typed
    accordingly, so the type assertions of [End] and [Report] cannot fail. *)
Record VectorClockAgent := mkAgent {
  startTimes : gmap string Z;
  durations : gmap string Z;
  counter : N
}.

Definition NewVectorClockAgent : VectorClockAgent := mkAgent ∅ ∅ 0.

Definition generateStepID (scenarioName stepText : string)
    (v : VectorClockAgent) : string * VectorClockAgent :=
  let count := Go.atomic_AddUint64 (counter v) 1 in
  (sprintf_stepID scenarioName stepText count,
   mkAgent (startTimes v) (durations v) count).

(** [now] is the value of [time.Now()]. *)
Definition Start (scenarioName stepText : string) (now : Z)
    (v : VectorClockAgent) : string * VectorClockAgent :=
  let r := generateStepID scenarioName stepText v in
  let stepID := r.1 in
  (stepID, mkAgent (<[stepID := now]> (startTimes r.2)) (durations r.2) (counter r.2)).

Section Printing.

(** [Duration.String], which [%v] uses for a [time.Duration]. *)
Variable Duration_String : Z → string.

(** [now] is the clock reading [time.Since] takes. *)
Definition End (stepID : string) (now : Z)
    (v : VectorClockAgent) : VectorClockAgent * list string :=
  match startTimes v !! stepID with
  | None => (v, ["No start time recorded for step '" +:+ stepID +:+ "'" +:+ Go.nl])
  | Some startTime =>
      let duration := Go.Since now startTime in
      (mkAgent (startTimes v) (<[stepID := duration]> (durations v)) (counter v),
       ["Step '" +:+ stepID +:+ "' took " +:+ Duration_String duration +:+ Go.nl])
  end.

Definition Report_line (entry : string * Z) : string :=
  "Step: " +:+ entry.1 +:+ ", Duration: " +:+ Duration_String entry.2 +:+ Go.nl.

(** [Range] visits every entry once, in no particular order. *)
Definition Report (v : VectorClockAgent) : list string :=
  ("=== Step Duration Report ===" +:+ Go.nl)
    :: (Report_line <$> map_to_list (durations v)).

(** One call on the agent. *)
Inductive Op :=
| OpStart (scenarioName stepText : string) (now : Z)
| OpEnd (stepID : string) (now : Z)
| OpReport.

Definition step (op : Op) (v : VectorClockAgent) : VectorClockAgent :=
  match op with
  | OpStart scenarioName stepText now => (Start scenarioName stepText now v).2
  | OpEnd stepID now => (End stepID now v).1
  | OpReport => v
  end.

Fixpoint run (ops : list Op) (v : VectorClockAgent) : VectorClockAgent :=
  match ops with
  | [] => v
  | op :: ops => run ops (step op v)
  end.

(** The identifiers the [Start] calls of [ops] return, in call order. *)
Fixpoint returned (ops : list Op) (v : VectorClockAgent) : list string :=
  match ops with
  | [] => []
  | OpStart scenarioName stepText now :: ops =>
      (Start scenarioName stepText now v).1
        :: returned ops (step (OpStart scenarioName stepText now) v)
  | op :: ops => returned ops (step op v)
  end.

Definition is_start (op : Op) : bool :=
  match op with OpStart _ _ _ => true | _ => false end.

(** How many [Start] calls [ops] makes. *)
Fixpoint starts (ops : list Op) : N :=
  match ops with
  | [] => 0
  | op :: ops => ((if is_start op then 1 else 0) + starts ops)%N
  end.

End Printing.

End InMemory.

(** ** [src/unnamed/part_000]: the agent backed by SQLite *)

Module Sqlite.

(** A row of [step_timings]. *)
Record Row := mkRow {
  id : Z;
  step_id : string;
  scenario_name : string;
  step_text : string;
  duration_ms : Z;
  created_at : string
}.

(** The database behind the [*sql.DB] handle: the rows of [step_timings] in
    insertion order and the largest [id] handed out so far (what
    [AUTOINCREMENT] keeps in [sqlite_sequence]). *)
Record DB := mkDB {
  step_timings : list Row;
  sqlite_sequence : Z
}.

(** What the outside world contributes to one [INSERT]: the error the
    driver returns for a reason other than a constraint (unreachable file,
    locked or closed database, ...), if any, and the value of
    [CURRENT_TIMESTAMP]. *)
Record Driver := mkDriver {
  failure : option string;
  CURRENT_TIMESTAMP : string
}.

Definition has_step_id (stepID : string) (r : Row) : bool :=
  bool_decide (step_id r = stepID).

(** [INSERT OR IGNORE INTO step_timings (step_id, scenario_name, step_text,
    duration_ms) VALUES (?, ?, ?, ?)]: [step_id] is [UNIQUE], so a row whose
    [step_id] is already there is dropped without an error.  The result is
    the database afterwards and the [err] of [db.Exec]. *)
Definition Exec_insert_or_ignore (drv : Driver)
    (stepID scenarioName stepText : string) (durationMs : Z)
    (db : DB) : DB * option string :=
  match failure drv with
  | Some err => (db, Some err)
  | None =>
      if existsb (has_step_id stepID) (step_timings db) then (db, None)
      else
        let rowid := sqlite_sequence db + 1 in
        (mkDB (step_timings db
                 ++ [mkRow rowid stepID scenarioName stepText durationMs
                       (CURRENT_TIMESTAMP drv)])
              rowid,
         None)
  end.

Record VectorClockAgent := mkAgent {
  startTimes : gmap string Z;
  durations : gmap string Z;
  counter : N;
  db : DB
}.

(** A call either returns or panics with a message. *)
Inductive outcome (A : Type) :=
| Returns (a : A)
| Panics (msg : string).
Arguments Returns {A} a.
Arguments Panics {A} msg.

(** [sql_Open dbPath] is the result of [sql.Open("sqlite3", dbPath)]: a
    handle on the database found there, or an error.  [create_table db] is
    the [err] of the [CREATE TABLE IF NOT EXISTS] statement on it, which
    leaves an existing table and its rows alone. *)
Definition NewVectorClockAgent (sql_Open : string → DB + string)
    (create_table : DB → option string)
    (dbPath : string) : outcome VectorClockAgent :=
  match sql_Open dbPath with
  | inr err => Panics ("failed to open SQLite database: " +:+ err)
  | inl db =>
      match create_table db with
      | Some err => Panics ("failed to create table: " +:+ err)
      | None => Returns (mkAgent ∅ ∅ 0 db)
      end
  end.

Definition generateStepID (scenarioName stepText : string)
    (v : VectorClockAgent) : string * VectorClockAgent :=
  let count := Go.atomic_AddUint64 (counter v) 1 in
  (sprintf_stepID scenarioName stepText count,
   mkAgent (startTimes v) (durations v) count (db v)).

Definition Start (scenarioName stepText : string) (now : Z)
    (v : VectorClockAgent) : string * VectorClockAgent :=
  let r := generateStepID scenarioName stepText v in
  let stepID := r.1 in
  (stepID,
   mkAgent (<[stepID := now]> (startTimes r.2)) (durations r.2) (counter r.2)
     (db r.2)).

Definition End (stepID scenarioName stepText : string) (now : Z)
    (drv : Driver) (v : VectorClockAgent) : VectorClockAgent * list string :=
  match startTimes v !! stepID with
  | None => (v, ["No start time recorded for step '" +:+ stepID +:+ "'" +:+ Go.nl])
  | Some startTime =>
      let duration := Go.Since now startTime in
      let durations' := <[stepID := duration]> (durations v) in
      let r := Exec_insert_or_ignore drv stepID scenarioName stepText
                 (Go.Milliseconds duration) (db v) in
      (mkAgent (startTimes v) durations' (counter v) r.1,
       match r.2 with
       | Some err =>
           ["Failed to save step '" +:+ stepID +:+ "' to DB: " +:+ err +:+ Go.nl]
       | None => []
       end)
  end.

Definition Report_line (r : Row) : string :=
  "StepID: " +:+ step_id r +:+ ", Scenario: " +:+ scenario_name r
    +:+ ", Step: " +:+ step_text r
    +:+ ", Duration: " +:+ pretty (duration_ms r) +:+ " ms, Timestamp: "
    +:+ created_at r +:+ Go.nl.

(** [query_err] is the [err] of [db.Query]; [scan_err r] the [err] of
    [rows.Scan] on row [r]. *)
Definition Report (query_err : option string) (scan_err : Row → option string)
    (v : VectorClockAgent) : list string :=
  ("=== Step Duration Report (SQLite) ===" +:+ Go.nl)
    :: match query_err with
       | Some err => ["Failed to fetch report: " +:+ err +:+ Go.nl]
       | None =>
           (λ r, match scan_err r with
                 | Some err => "Failed to scan row: " +:+ err +:+ Go.nl
                 | None => Report_line r
                 end) <$> step_timings (db v)
       end.

Inductive Op :=
| OpStart (scenarioName stepText : string) (now : Z)
| OpEnd (stepID scenarioName stepText : string) (now : Z) (drv : Driver)
| OpReport.

Definition step (op : Op) (v : VectorClockAgent) : VectorClockAgent :=
  match op with
  | OpStart scenarioName stepText now => (Start scenarioName stepText now v).2
  | OpEnd stepID scenarioName stepText now drv =>
      (End stepID scenarioName stepText now drv v).1
  | OpReport => v
  end.

Fixpoint run (ops : list Op) (v : VectorClockAgent) : VectorClockAgent :=
  match ops with
  | [] => v
  | op :: ops => run ops (step op v)
  end.

Fixpoint returned (ops : list Op) (v : VectorClockAgent) : list string :=
  match ops with
  | [] => []
  | OpStart scenarioName stepText now :: ops =>
      (Start scenarioName stepText now v).1
        :: returned ops (step (OpStart scenarioName stepText now) v)
  | op :: ops => returned ops (step op v)
  end.

Definition is_start (op : Op) : bool :=
  match op with OpStart _ _ _ => true | _ => false end.

Fixpoint starts (ops : list Op) : N :=
  match ops with
  | [] => 0
  | op :: ops => ((if is_start op then 1 else 0) + starts ops)%N
  end.

(** The rows of the table that carry [stepID]. *)
Definition rows_of (stepID : string) (d : DB) : list Row :=
  List.filter (has_step_id stepID) (step_timings d).


End Sqlite.

(** ** [InitializeScenario]: the hooks that drive the agent

    [InitializeScenario] registers three closures with godog.  They share two
    variables, [scenarioName] and the map [stepIDs] from a step (a
    [*godog.Step], compared by address) to the identifier [Start] returned
    for it, and they all work on the one global [agent].  A [godog.Step] is
    modelled by its address and its [Text]; the state the closures work on is
    the pair of their variables and the agent. *)

Record Step := mkStep {
  addr : positive;
  Text : string
}.

Record Closure := mkClosure {
  scenarioName : string;
  stepIDs : gmap positive string
}.

(** The variables as [InitializeScenario] declares them. *)
Definition InitializeScenario : Closure := mkClosure "" ∅.

(** [ctx.Before]: [scenarioName = s.Name]. *)
Definition BeforeScenario (Name : string) (c : Closure) : Closure :=
  mkClosure Name (stepIDs c).

(** *** [src/main.go] *)

Module InMemoryHooks.

Section Printing.

Variable Duration_String : Z → string.

(** [stepCtx.Before]; [now] is the clock reading of [Start]. *)
Definition BeforeStep (step : Step) (now : Z)
    (w : Closure * InMemory.VectorClockAgent)
    : Closure * InMemory.VectorClockAgent :=
  let r := InMemory.Start (scenarioName w.1) (Text step) now w.2 in
  let stepID := r.1 in
  (mkClosure (scenarioName w.1) (<[addr step := stepID]> (stepIDs w.1)), r.2).

(** [stepCtx.After]; the status and the error of the step are not used. *)
Definition AfterStep (step : Step) (now : Z)
    (w : Closure * InMemory.VectorClockAgent)
    : (Closure * InMemory.VectorClockAgent) * list string :=
  match stepIDs w.1 !! addr step with
  | Some stepID =>
      let r := InMemory.End Duration_String stepID now w.2 in
      ((mkClosure (scenarioName w.1) (delete (addr step) (stepIDs w.1)), r.1), r.2)
  | None => (w, ["Step ID not found for step: " +:+ Text step +:+ Go.nl])
  end.

(** One hook fired by the runner. *)
Inductive Hook :=
| HBeforeScenario (Name : string)
| HBeforeStep (step : Step) (now : Z)
| HAfterStep (step : Step) (now : Z).

Definition fire (h : Hook) (w : Closure * InMemory.VectorClockAgent)
    : Closure * InMemory.VectorClockAgent :=
  match h with
  | HBeforeScenario Name => (BeforeScenario Name w.1, w.2)
  | HBeforeStep step now => BeforeStep step now w
  | HAfterStep step now => (AfterStep step now w).1
  end.

Fixpoint fire_all (hs : list Hook) (w : Closure * InMemory.VectorClockAgent)
    : Closure * InMemory.VectorClockAgent :=
  match hs with
  | [] => w
  | h :: hs => fire_all hs (fire h w)
  end.

(** The calls the hooks make on the agent, in order. *)
Fixpoint calls (hs : list Hook) (w : Closure * InMemory.VectorClockAgent)
    : list InMemory.Op :=
  match hs with
  | [] => []
  | HBeforeScenario Name :: hs => calls hs (fire (HBeforeScenario Name) w)
  | HBeforeStep step now :: hs =>
      InMemory.OpStart (scenarioName w.1) (Text step) now
        :: calls hs (fire (HBeforeStep step now) w)
  | HAfterStep step now :: hs =>
      match stepIDs w.1 !! addr step with
      | Some stepID =>
          InMemory.OpEnd stepID now :: calls hs (fire (HAfterStep step now) w)
      | None => calls hs (fire (HAfterStep step now) w)
      end
  end.

(** The identifiers the hooks pass to [End], in order. *)
Fixpoint ended (hs : list Hook) (w : Closure * InMemory.VectorClockAgent)
    : list string :=
  match hs with
  | [] => []
  | HAfterStep step now :: hs =>
      match stepIDs w.1 !! addr step with
      | Some stepID => stepID :: ended hs (fire (HAfterStep step now) w)
      | None => ended hs (fire (HAfterStep step now) w)
      end
  | h :: hs => ended hs (fire h w)
  end.

(** How many [stepCtx.Before] hooks [hs] fires. *)
Fixpoint befores (hs : list Hook) : N :=
  match hs with
  | [] => 0
  | HBeforeStep _ _ :: hs => (1 + befores hs)%N
  | _ :: hs => befores hs
  end.

(** The step a hook is about. *)
Definition hook_addr (h : Hook) : option positive :=
  match h with
  | HBeforeScenario _ => None
  | HBeforeStep step _ => Some (addr step)
  | HAfterStep step _ => Some (addr step)
  end.

End Printing.

(** Every identifier the closure holds for a step has a start time. *)
Definition held_are_started (w : Closure * InMemory.VectorClockAgent) : Prop :=
  ∀ a stepID, stepIDs w.1 !! a = Some stepID →
    is_Some (InMemory.startTimes w.2 !! stepID).

End InMemoryHooks.

(** *** [src/unnamed/part_000] *)

Module SqliteHooks.

Definition BeforeStep (step : Step) (now : Z)
    (w : Closure * Sqlite.VectorClockAgent) : Closure * Sqlite.VectorClockAgent :=
  let r := Sqlite.Start (scenarioName w.1) (Text step) now w.2 in
  let stepID := r.1 in
  (mkClosure (scenarioName w.1) (<[addr step := stepID]> (stepIDs w.1)), r.2).

(** [stepCtx.After]: here [End] also receives the scenario name and the text
    of the step, and a step without an identifier is passed over in
    silence. *)
Definition AfterStep (step : Step) (now : Z) (drv : Sqlite.Driver)
    (w : Closure * Sqlite.VectorClockAgent)
    : (Closure * Sqlite.VectorClockAgent) * list string :=
  match stepIDs w.1 !! addr step with
  | Some stepID =>
      let r := Sqlite.End stepID (scenarioName w.1) (Text step) now drv w.2 in
      ((mkClosure (scenarioName w.1) (delete (addr step) (stepIDs w.1)), r.1), r.2)
  | None => (w, [])
  end.

End SqliteHooks.

(** * Properties *)

(** ** Facts about strings used for step identifiers *)

Lemma string_app_nil_l (b : string) : "" +:+ b = b.
Proof. reflexivity. Qed.

Lemma string_app_cons (x : ascii) (a b : string) :
  String x a +:+ b = String x (a +:+ b).
Proof. reflexivity. Qed.

Ltac string_simpl := rewrite ?string_app_cons, ?string_app_nil_l.

Lemma string_app_assoc (a b c : string) : (a +:+ b) +:+ c = a +:+ b +:+ c.
Proof. induction a as [|x a IH]; string_simpl; [done|by f_equal]. Qed.

Lemma no_dash_app_dash (a b : string) : ¬ no_dash (a +:+ "-" +:+ b).
Proof.
  induction a as [|x a IH]; string_simpl; simpl.
  - intros [H _]. by apply H.
  - intros [_ H]. by apply IH.
Qed.

(** The text after the last separator determines itself: two strings that end
    in a separator followed by separator-free text agree on that text. *)
Lemma dash_suffix_inj (a b d1 d2 : string) :
  no_dash d1 → no_dash d2 →
  a +:+ "-" +:+ d1 = b +:+ "-" +:+ d2 → a = b ∧ d1 = d2.
Proof.
  intros Hd1 Hd2. revert b.
  induction a as [|x a IH]; intros [|y b]; string_simpl; intros Heq.
  - by simplify_eq.
  - injection Heq as _ ->. by destruct (no_dash_app_dash b d2).
  - injection Heq as _ <-. by destruct (no_dash_app_dash a d1).
  - injection Heq as -> Heq. destruct (IH _ Heq) as [-> ->]. done.
Qed.

Lemma pretty_N_char_no_dash (x : N) : pretty_N_char x ≠ "-"%char.
Proof. unfold pretty_N_char. by repeat case_match. Qed.

Lemma pretty_N_go_no_dash (x : N) (s : string) :
  no_dash s → no_dash (pretty_N_go x s).
Proof.
  revert s. induction (N.lt_wf_0 x) as [x _ IH]; intros s Hs.
  destruct (decide (x = 0%N)) as [->|Hx].
  - by rewrite pretty_N_go_0.
  - rewrite pretty_N_go_step by lia. apply IH.
    + apply N.div_lt; lia.
    + split; [apply pretty_N_char_no_dash|done].
Qed.

(** The decimal rendering of a counter value has no separator in it. *)
Lemma pretty_N_no_dash (x : N) : no_dash (pretty x).
Proof.
  unfold pretty, pretty_N. case_decide.
  - simpl. split; [discriminate|done].
  - by apply pretty_N_go_no_dash.
Qed.




Lemma sprintf_stepID_count_inj (s t s' t' : string) (n n' : N) :
  sprintf_stepID s t n = sprintf_stepID s' t' n' → n = n'.
Proof.
  unfold sprintf_stepID. intros Heq.
  assert ((s +:+ "-" +:+ t) +:+ "-" +:+ pretty n
          = (s' +:+ "-" +:+ t') +:+ "-" +:+ pretty n') as Heq'.
  { by rewrite !string_app_assoc. }
  apply dash_suffix_inj in Heq' as [_ Hp]; [|apply pretty_N_no_dash..].
  by apply (inj pretty).
Qed.





(** ** Counter arithmetic *)

Lemma uint64_wrap_add_l (a b : N) :
  Go.uint64_wrap (Go.uint64_wrap a + b) = Go.uint64_wrap (a + b).
Proof. unfold Go.uint64_wrap. by rewrite N.Div0.add_mod_idemp_l. Qed.

(** Within one lap of the counter no value comes back. *)
Lemma uint64_wrap_shift_ne (c i : N) :
  (0 < i < 2 ^ 64)%N → Go.uint64_wrap (c + i) ≠ Go.uint64_wrap c.
Proof.
  unfold Go.uint64_wrap. intros Hi Heq.
  pose proof (N.div_mod (c + i) (2 ^ 64)) as H1.
  pose proof (N.div_mod c (2 ^ 64)) as H2.
  pose proof (N.mod_lt c (2 ^ 64)) as H3.
  rewrite Heq in H1.
  set (q1 := ((c + i) / 2 ^ 64)%N) in *. set (q2 := (c / 2 ^ 64)%N) in *.
  set (r := (c mod 2 ^ 64)%N) in *.
  assert (2 ^ 64 ≠ 0)%N as Hne by done.
  specialize (H1 Hne). specialize (H2 Hne). specialize (H3 Hne).
  assert (i = 2 ^ 64 * q1 - 2 ^ 64 * q2)%N as Hi' by lia.
  assert (q1 ≤ q2 ∨ q2 + 1 ≤ q1)%N as [?|?] by lia; nia.
Qed.


Lemma subMono_exact (t u : Z) :
  0 ≤ u → u ≤ t → t < 2 ^ 63 → Go.subMono t u = t - u.
Proof.
  intros Hu Hut Ht. unfold Go.subMono, Go.int64_wrap.
  assert ((t - u + 2 ^ 63) mod 2 ^ 64 - 2 ^ 63 = t - u) as ->.
  { rewrite Z.mod_small; lia. }
  destruct (t - u <? 0) eqn:E1; [lia|]. simpl.
  destruct (t <? u) eqn:E2; [lia|]. by rewrite andb_false_r.
Qed.

(** ** The in-memory agent *)

Section InMemoryFacts.

Import InMemory.
Variable Duration_String : Z → string.

Local Abbreviation step := (step Duration_String).
Local Abbreviation run := (run Duration_String).
Local Abbreviation returned := (returned Duration_String).
Local Abbreviation End := (End Duration_String).

Ltac im_simpl :=
  cbn [InMemory.run InMemory.returned InMemory.step InMemory.starts
       InMemory.is_start].

Lemma im_Start_id (s t : string) (now : Z) (v : VectorClockAgent) :
  (Start s t now v).1 = sprintf_stepID s t (Go.uint64_wrap (counter v + 1)).
Proof. reflexivity. Qed.

Lemma im_Start_counter (s t : string) (now : Z) (v : VectorClockAgent) :
  counter (Start s t now v).2 = Go.uint64_wrap (counter v + 1).
Proof. reflexivity. Qed.

Lemma im_Start_startTimes (s t : string) (now : Z) (v : VectorClockAgent) :
  startTimes (Start s t now v).2 = <[(Start s t now v).1 := now]> (startTimes v).
Proof. reflexivity. Qed.

Lemma im_Start_durations (s t : string) (now : Z) (v : VectorClockAgent) :
  durations (Start s t now v).2 = durations v.
Proof. reflexivity. Qed.

Lemma im_End_counter (id : string) (now : Z) (v : VectorClockAgent) :
  counter (End id now v).1 = counter v.
Proof. unfold InMemory.End. by destruct (startTimes v !! id). Qed.

Lemma im_End_startTimes (id : string) (now : Z) (v : VectorClockAgent) :
  startTimes (End id now v).1 = startTimes v.
Proof. unfold InMemory.End. by destruct (startTimes v !! id). Qed.

Lemma im_End_durations (id : string) (now : Z) (v : VectorClockAgent) :
  durations (End id now v).1
  = match startTimes v !! id with
    | Some t0 => <[id := Go.Since now t0]> (durations v)
    | None => durations v
    end.
Proof. unfold InMemory.End. by destruct (startTimes v !! id). Qed.



(** Every returned identifier carries one of the next counter values. *)
Lemma im_returned_spec (ops : list Op) (v : VectorClockAgent) (x : string) :
  x ∈ returned ops v →
  ∃ s t now i, OpStart s t now ∈ ops ∧ (1 ≤ i ≤ starts ops)%N
               ∧ x = sprintf_stepID s t (Go.uint64_wrap (counter v + i)).
Proof.
  revert v. induction ops as [|op ops IH]; intros v; im_simpl.
  - by intros ?%elem_of_nil.
  - destruct op as [s t now|id now|].
    + intros [->|Hin]%elem_of_cons.
      * exists s, t, now, 1%N. split; [left|]. split; [im_simpl; lia|reflexivity].
      * destruct (IH _ Hin) as (s' & t' & now' & i & Hop & Hi & ->).
        exists s', t', now', (1 + i)%N. split; [by right|].
        split; [im_simpl; lia|]. im_simpl. rewrite im_Start_counter.
        rewrite uint64_wrap_add_l. do 2 f_equal. lia.
    + intros Hin. destruct (IH _ Hin) as (s' & t' & now' & i & Hop & Hi & ->).
      exists s', t', now', i. split; [by right|]. split; [im_simpl; lia|].
      im_simpl. by rewrite im_End_counter.
    + intros Hin. destruct (IH _ Hin) as (s' & t' & now' & i & Hop & Hi & ->).
      exists s', t', now', i. split; [by right|]. split; [im_simpl; lia|done].
Qed.

(** Identifiers returned within one lap of the counter are pairwise
    distinct. *)
Lemma im_returned_NoDup (ops : list Op) (v : VectorClockAgent) :
  (starts ops ≤ 2 ^ 64)%N → NoDup (returned ops v).
Proof.
  revert v. induction ops as [|op ops IH]; intros v; im_simpl; [constructor|].
  destruct op as [s t now|id now|]; im_simpl; intros Hle; [|apply IH; lia..].
  constructor; [|apply IH; lia].
  intros (s' & t' & now' & i & _ & Hi & Heq)%im_returned_spec.
  rewrite im_Start_id in Heq. apply sprintf_stepID_count_inj in Heq.
  rewrite im_Start_counter, uint64_wrap_add_l in Heq.
  symmetry in Heq. revert Heq. apply uint64_wrap_shift_ne. lia.
Qed.

(** A trace touches the start time of an identifier only by returning it. *)
Lemma im_run_startTimes_other (ops : list Op) (v : VectorClockAgent) (x : string) :
  x ∉ returned ops v → startTimes (run ops v) !! x = startTimes v !! x.
Proof.
  revert v. induction ops as [|op ops IH]; intros v; im_simpl; [done|].
  destruct op as [s t now|id now|]; im_simpl.
  - intros [Hne Hnin]%not_elem_of_cons. rewrite (IH _ Hnin).
    rewrite im_Start_startTimes. by rewrite lookup_insert_ne.
  - intros Hnin. rewrite (IH _ Hnin). by rewrite im_End_startTimes.
  - apply IH.
Qed.



(** A duration is only ever stored for a started step. *)
Lemma im_step_inv (op : Op) (v : VectorClockAgent) :
  dom (durations v) ⊆ dom (startTimes v) →
  dom (durations (step op v)) ⊆ dom (startTimes (step op v)).
Proof.
  destruct op as [s t now|id now|]; im_simpl; [| |done].
  - rewrite im_Start_startTimes, im_Start_durations, dom_insert_L.
    intros Hv x Hx. apply elem_of_union. right. by apply Hv.
  - rewrite im_End_durations, im_End_startTimes.
    destruct (startTimes v !! id) eqn:E; [|done].
    rewrite dom_insert_L. apply elem_of_dom_2 in E.
    intros Hv x [->%elem_of_singleton|Hx]%elem_of_union; [done|by apply Hv].
Qed.

Lemma im_run_inv (ops : list Op) (v : VectorClockAgent) :
  dom (durations v) ⊆ dom (startTimes v) →
  dom (durations (run ops v)) ⊆ dom (startTimes (run ops v)).
Proof.
  revert v. induction ops as [|op ops IH]; intros v Hv; im_simpl; [done|].
  by apply IH, im_step_inv.
Qed.


(** The identifier a [Start] returns is not returned again within the next
    lap of the counter. *)
Lemma im_Start_id_not_returned (s t : string) (now : Z) (v : VectorClockAgent)
    (ops : list Op) :
  (starts ops < 2 ^ 64)%N →
  (Start s t now v).1 ∉ returned ops (Start s t now v).2.
Proof.
  intros Hlt (s' & t' & now' & i & _ & Hi & Heq)%im_returned_spec.
  rewrite im_Start_id in Heq. apply sprintf_stepID_count_inj in Heq.
  rewrite im_Start_counter, uint64_wrap_add_l in Heq.
  symmetry in Heq. revert Heq. apply uint64_wrap_shift_ne. lia.
Qed.



End InMemoryFacts.

(** ** The SQLite-backed agent: the table *)

Section SqliteTable.

Import Sqlite.

Lemma existsb_has_step_id (stepID : string) (l : list Row) :
  existsb (has_step_id stepID) l = true ↔ stepID ∈ step_id <$> l.
Proof.
  induction l as [|r l IH]; cbn [existsb fmap list_fmap].
  - split; [done|by intros ?%elem_of_nil].
  - rewrite orb_true_iff, IH, elem_of_cons. unfold has_step_id.
    rewrite bool_decide_eq_true. split; (intros [?|?]; [by left|by right]).
Qed.

Lemma rows_of_absent (stepID : string) (l : list Row) :
  stepID ∉ step_id <$> l → List.filter (has_step_id stepID) l = [].
Proof.
  induction l as [|r l IH]; cbn [List.filter fmap list_fmap]; [done|].
  intros [Hne Hnin]%not_elem_of_cons. unfold has_step_id at 1.
  rewrite bool_decide_eq_false_2 by done. by apply IH.
Qed.


Lemma insert_failure (drv : Driver) (err : string)
    (stepID s t : string) (ms : Z) (d : DB) :
  failure drv = Some err →
  Exec_insert_or_ignore drv stepID s t ms d = (d, Some err).
Proof. unfold Exec_insert_or_ignore. by intros ->. Qed.

Lemma insert_present (drv : Driver) (stepID s t : string) (ms : Z) (d : DB) :
  stepID ∈ step_id <$> step_timings d →
  Exec_insert_or_ignore drv stepID s t ms d = (d, failure drv).
Proof.
  intros Hin%existsb_has_step_id. unfold Exec_insert_or_ignore.
  rewrite Hin. by destruct (failure drv).
Qed.

Lemma insert_absent (drv : Driver) (stepID s t : string) (ms : Z) (d : DB) :
  failure drv = None → stepID ∉ step_id <$> step_timings d →
  Exec_insert_or_ignore drv stepID s t ms d
  = (mkDB (step_timings d
             ++ [mkRow (sqlite_sequence d + 1) stepID s t ms (CURRENT_TIMESTAMP drv)])
          (sqlite_sequence d + 1), None).
Proof.
  intros Hf Hnin. unfold Exec_insert_or_ignore. rewrite Hf.
  destruct (existsb _ _) eqn:E; [|done].
  by apply existsb_has_step_id in E.
Qed.

(** After a statement that ran, the [step_id] is in the table. *)
Lemma insert_stores (drv : Driver) (stepID s t : string) (ms : Z) (d : DB) :
  failure drv = None →
  stepID ∈ step_id <$> step_timings (Exec_insert_or_ignore drv stepID s t ms d).1.
Proof.
  intros Hf. destruct (decide (stepID ∈ step_id <$> step_timings d)) as [Hin|Hnin].
  - by rewrite insert_present.
  - rewrite insert_absent by done. cbn [fst step_timings].
    rewrite fmap_app. apply elem_of_app. right. cbn. by left.
Qed.

(** Rows are only ever appended. *)
Lemma insert_prefix (drv : Driver) (stepID s t : string) (ms : Z) (d : DB) :
  step_timings d `prefix_of` step_timings (Exec_insert_or_ignore drv stepID s t ms d).1.
Proof.
  unfold Exec_insert_or_ignore. destruct (failure drv); [done|].
  destruct (existsb _ _); [done|]. cbn [fst step_timings]. by eexists.
Qed.


End SqliteTable.

(** ** The SQLite-backed agent: the operations *)

Section SqliteFacts.

Import Sqlite.

Ltac sq_simpl :=
  cbn [Sqlite.run Sqlite.returned Sqlite.step Sqlite.starts Sqlite.is_start].
Ltac sq_simpl_in H :=
  cbn [Sqlite.run Sqlite.returned Sqlite.step Sqlite.starts Sqlite.is_start] in H.

Lemma sq_Start_id (s t : string) (now : Z) (v : VectorClockAgent) :
  (Start s t now v).1 = sprintf_stepID s t (Go.uint64_wrap (counter v + 1)).
Proof. reflexivity. Qed.

Lemma sq_Start_counter (s t : string) (now : Z) (v : VectorClockAgent) :
  counter (Start s t now v).2 = Go.uint64_wrap (counter v + 1).
Proof. reflexivity. Qed.

Lemma sq_Start_startTimes (s t : string) (now : Z) (v : VectorClockAgent) :
  startTimes (Start s t now v).2 = <[(Start s t now v).1 := now]> (startTimes v).
Proof. reflexivity. Qed.

Lemma sq_Start_durations (s t : string) (now : Z) (v : VectorClockAgent) :
  durations (Start s t now v).2 = durations v.
Proof. reflexivity. Qed.

Lemma sq_End_counter (id s t : string) (now : Z) (drv : Driver) (v : VectorClockAgent) :
  counter (End id s t now drv v).1 = counter v.
Proof. unfold End. by destruct (startTimes v !! id). Qed.

Lemma sq_End_startTimes (id s t : string) (now : Z) (drv : Driver) (v : VectorClockAgent) :
  startTimes (End id s t now drv v).1 = startTimes v.
Proof. unfold End. by destruct (startTimes v !! id). Qed.

Lemma sq_End_durations (id s t : string) (now : Z) (drv : Driver) (v : VectorClockAgent) :
  durations (End id s t now drv v).1
  = match startTimes v !! id with
    | Some t0 => <[id := Go.Since now t0]> (durations v)
    | None => durations v
    end.
Proof. unfold End. by destruct (startTimes v !! id). Qed.

Lemma sq_End_db (id s t : string) (now : Z) (drv : Driver) (v : VectorClockAgent) :
  db (End id s t now drv v).1
  = match startTimes v !! id with
    | Some t0 =>
        (Exec_insert_or_ignore drv id s t (Go.Milliseconds (Go.Since now t0)) (db v)).1
    | None => db v
    end.
Proof. unfold End. by destruct (startTimes v !! id). Qed.

Lemma sq_End_output (id s t : string) (now : Z) (drv : Driver) (v : VectorClockAgent) :
  (End id s t now drv v).2
  = match startTimes v !! id with
    | Some t0 =>
        match (Exec_insert_or_ignore drv id s t
                 (Go.Milliseconds (Go.Since now t0)) (db v)).2 with
        | Some err => ["Failed to save step '" +:+ id +:+ "' to DB: " +:+ err +:+ Go.nl]
        | None => []
        end
    | None => ["No start time recorded for step '" +:+ id +:+ "'" +:+ Go.nl]
    end.
Proof. unfold End. by destruct (startTimes v !! id). Qed.



Lemma sq_returned_spec (ops : list Op) (v : VectorClockAgent) (x : string) :
  x ∈ returned ops v →
  ∃ s t now i, OpStart s t now ∈ ops ∧ (1 ≤ i ≤ starts ops)%N
               ∧ x = sprintf_stepID s t (Go.uint64_wrap (counter v + i)).
Proof.
  revert v. induction ops as [|op ops IH]; intros v; sq_simpl.
  - by intros ?%elem_of_nil.
  - destruct op as [s t now|id s t now drv|].
    + intros [->|Hin]%elem_of_cons.
      * exists s, t, now, 1%N. split; [left|]. split; [sq_simpl; lia|reflexivity].
      * destruct (IH _ Hin) as (s' & t' & now' & i & Hop & Hi & ->).
        exists s', t', now', (1 + i)%N. split; [by right|].
        split; [sq_simpl; lia|]. sq_simpl. rewrite sq_Start_counter.
        rewrite uint64_wrap_add_l. do 2 f_equal. lia.
    + intros Hin. destruct (IH _ Hin) as (s' & t' & now' & i & Hop & Hi & ->).
      exists s', t', now', i. split; [by right|]. split; [sq_simpl; lia|].
      sq_simpl. by rewrite sq_End_counter.
    + intros Hin. destruct (IH _ Hin) as (s' & t' & now' & i & Hop & Hi & ->).
      exists s', t', now', i. split; [by right|]. split; [sq_simpl; lia|done].
Qed.

Lemma sq_returned_NoDup (ops : list Op) (v : VectorClockAgent) :
  (starts ops ≤ 2 ^ 64)%N → NoDup (returned ops v).
Proof.
  revert v. induction ops as [|op ops IH]; intros v; sq_simpl; [constructor|].
  destruct op as [s t now|id s t now drv|]; sq_simpl; intros Hle; [|apply IH; lia..].
  constructor; [|apply IH; lia].
  intros (s' & t' & now' & i & _ & Hi & Heq)%sq_returned_spec.
  rewrite sq_Start_id in Heq. apply sprintf_stepID_count_inj in Heq.
  rewrite sq_Start_counter, uint64_wrap_add_l in Heq.
  symmetry in Heq. revert Heq. apply uint64_wrap_shift_ne. lia.
Qed.

Lemma sq_run_startTimes_other (ops : list Op) (v : VectorClockAgent) (x : string) :
  x ∉ returned ops v → startTimes (run ops v) !! x = startTimes v !! x.
Proof.
  revert v. induction ops as [|op ops IH]; intros v; sq_simpl; [done|].
  destruct op as [s t now|id s t now drv|]; sq_simpl.
  - intros [Hne Hnin]%not_elem_of_cons. rewrite (IH _ Hnin).
    rewrite sq_Start_startTimes. by rewrite lookup_insert_ne.
  - intros Hnin. rewrite (IH _ Hnin). by rewrite sq_End_startTimes.
  - apply IH.
Qed.


Lemma sq_step_durations_mono (op : Op) (v : VectorClockAgent) (x : string) :
  is_Some (durations v !! x) → is_Some (durations (step op v) !! x).
Proof.
  destruct op as [s t now|id s t now drv|]; sq_simpl; [done| |done].
  rewrite sq_End_durations. destruct (startTimes v !! id); [|done].
  intros Hx. destruct (decide (id = x)) as [<-|Hne].
  - rewrite lookup_insert_eq. eauto.
  - by rewrite lookup_insert_ne.
Qed.



Lemma sq_step_inv (op : Op) (v : VectorClockAgent) :
  dom (durations v) ⊆ dom (startTimes v) →
  dom (durations (step op v)) ⊆ dom (startTimes (step op v)).
Proof.
  destruct op as [s t now|id s t now drv|]; sq_simpl; [| |done].
  - rewrite sq_Start_startTimes, sq_Start_durations, dom_insert_L.
    intros Hv x Hx. apply elem_of_union. right. by apply Hv.
  - rewrite sq_End_durations, sq_End_startTimes.
    destruct (startTimes v !! id) eqn:E; [|done].
    rewrite dom_insert_L. apply elem_of_dom_2 in E.
    intros Hv x [->%elem_of_singleton|Hx]%elem_of_union; [done|by apply Hv].
Qed.

Lemma sq_run_inv (ops : list Op) (v : VectorClockAgent) :
  dom (durations v) ⊆ dom (startTimes v) →
  dom (durations (run ops v)) ⊆ dom (startTimes (run ops v)).
Proof.
  revert v. induction ops as [|op ops IH]; intros v Hv; sq_simpl; [done|].
  by apply IH, sq_step_inv.
Qed.

Lemma sq_Start_id_not_returned (s t : string) (now : Z) (v : VectorClockAgent)
    (ops : list Op) :
  (starts ops < 2 ^ 64)%N →
  (Start s t now v).1 ∉ returned ops (Start s t now v).2.
Proof.
  intros Hlt (s' & t' & now' & i & _ & Hi & Heq)%sq_returned_spec.
  rewrite sq_Start_id in Heq. apply sprintf_stepID_count_inj in Heq.
  rewrite sq_Start_counter, uint64_wrap_add_l in Heq.
  symmetry in Heq. revert Heq. apply uint64_wrap_shift_ne. lia.
Qed.

(** What a constructor call that returns has seen, and what it returns. *)
Lemma sq_New_Returns (sql_Open : string → DB + string)
    (create_table : DB → option string) (dbPath : string) (v : VectorClockAgent) :
  NewVectorClockAgent sql_Open create_table dbPath = Returns v →
  ∃ d, sql_Open dbPath = inl d ∧ create_table d = None ∧ v = mkAgent ∅ ∅ 0 d.
Proof.
  unfold NewVectorClockAgent. destruct (sql_Open dbPath) as [d|err]; [|done].
  destruct (create_table d) eqn:E; [done|]. intros [= <-]. by exists d.
Qed.

End SqliteFacts.

(** * The properties of the specification *)

(** ** C1: step identifiers are pairwise distinct *)




(** ** C4: the shape of a step identifier *)



(** ** C2: [End] on a step that was never started *)

(** C2.  [End] with an identifier that has no start time prints the
    diagnostic and returns the agent as it was: no duration stored, nothing
    written to the table.  Such is every identifier that no [Start] of the
    run has returned.  Both versions of the agent. *)
Theorem C2_End_unknown_step
    (Duration_String : Z → string) (stepID scenarioName stepText : string)
    (now : Z) (drv : Sqlite.Driver) :
  (∀ v : InMemory.VectorClockAgent,
     InMemory.startTimes v !! stepID = None →
     InMemory.End Duration_String stepID now v
     = (v, ["No start time recorded for step '" +:+ stepID +:+ "'" +:+ Go.nl]))
  ∧ (∀ ops : list InMemory.Op,
       stepID ∉ InMemory.returned Duration_String ops InMemory.NewVectorClockAgent →
       InMemory.startTimes
         (InMemory.run Duration_String ops InMemory.NewVectorClockAgent) !! stepID
       = None)
  ∧ (∀ v : Sqlite.VectorClockAgent,
       Sqlite.startTimes v !! stepID = None →
       Sqlite.End stepID scenarioName stepText now drv v
       = (v, ["No start time recorded for step '" +:+ stepID +:+ "'" +:+ Go.nl]))
  ∧ (∀ (ops : list Sqlite.Op) (d : Sqlite.DB),
       stepID ∉ Sqlite.returned ops (Sqlite.mkAgent ∅ ∅ 0 d) →
       Sqlite.startTimes (Sqlite.run ops (Sqlite.mkAgent ∅ ∅ 0 d)) !! stepID
       = None).
Proof.
  split_and!.
  - intros v Hv. unfold InMemory.End. by rewrite Hv.
  - intros ops Hnin. by rewrite im_run_startTimes_other.
  - intros v Hv. unfold Sqlite.End. by rewrite Hv.
  - intros ops d Hnin. by rewrite sq_run_startTimes_other.
Qed.

(** [End] with an identifier that the one [Start] of the run did not
    return. *)
Lemma C2_End_unknown_step_witness :
  InMemory.End pretty "Login-I click submit-2" 70
    (InMemory.run pretty [InMemory.OpStart "Login" "I click submit" 10]
       InMemory.NewVectorClockAgent)
  = (InMemory.run pretty [InMemory.OpStart "Login" "I click submit" 10]
       InMemory.NewVectorClockAgent,
     ["No start time recorded for step 'Login-I click submit-2'" +:+ Go.nl])
  ∧ Sqlite.End "Login-I click submit-2" "Login" "I click submit" 70
      (Sqlite.mkDriver None "2024-05-01 10:00:00")
      (Sqlite.run [Sqlite.OpStart "Login" "I click submit" 10]
         (Sqlite.mkAgent ∅ ∅ 0 (Sqlite.mkDB [] 0)))
    = (Sqlite.run [Sqlite.OpStart "Login" "I click submit" 10]
         (Sqlite.mkAgent ∅ ∅ 0 (Sqlite.mkDB [] 0)),
       ["No start time recorded for step 'Login-I click submit-2'" +:+ Go.nl]).
Proof.
  destruct (C2_End_unknown_step pretty "Login-I click submit-2" "Login"
              "I click submit" 70 (Sqlite.mkDriver None "2024-05-01 10:00:00"))
    as (H1 & H2 & H3 & H4).
  split.
  - apply H1, H2. vm_compute.
    intros [H|H]%elem_of_cons; [discriminate H|by apply elem_of_nil in H].
  - apply H3, H4. vm_compute.
    intros [H|H]%elem_of_cons; [discriminate H|by apply elem_of_nil in H].
Defined.

(** ** C10: a duration is only recorded for a started step *)

(** C10.  The keys of [durations] are among the keys of [startTimes]: this
    holds of the fresh agent, every [Start], [End] and [Report] preserves it,
    and so it holds after every trace.  Both versions of the agent; for the
    SQLite one the fresh agent is [mkAgent ∅ ∅ 0 d], the value the
    constructor returns on database [d]. *)
Theorem C10_durations_within_startTimes (Duration_String : Z → string) :
  (dom (InMemory.durations InMemory.NewVectorClockAgent)
     ⊆ dom (InMemory.startTimes InMemory.NewVectorClockAgent)
   ∧ (∀ (op : InMemory.Op) (v : InMemory.VectorClockAgent),
        dom (InMemory.durations v) ⊆ dom (InMemory.startTimes v) →
        dom (InMemory.durations (InMemory.step Duration_String op v))
          ⊆ dom (InMemory.startTimes (InMemory.step Duration_String op v)))
   ∧ (∀ ops : list InMemory.Op,
        dom (InMemory.durations
               (InMemory.run Duration_String ops InMemory.NewVectorClockAgent))
          ⊆ dom (InMemory.startTimes
                   (InMemory.run Duration_String ops InMemory.NewVectorClockAgent))))
  ∧ ((∀ d : Sqlite.DB,
        dom (Sqlite.durations (Sqlite.mkAgent ∅ ∅ 0 d))
          ⊆ dom (Sqlite.startTimes (Sqlite.mkAgent ∅ ∅ 0 d)))
     ∧ (∀ (op : Sqlite.Op) (v : Sqlite.VectorClockAgent),
          dom (Sqlite.durations v) ⊆ dom (Sqlite.startTimes v) →
          dom (Sqlite.durations (Sqlite.step op v))
            ⊆ dom (Sqlite.startTimes (Sqlite.step op v)))
     ∧ (∀ (ops : list Sqlite.Op) (d : Sqlite.DB),
          dom (Sqlite.durations (Sqlite.run ops (Sqlite.mkAgent ∅ ∅ 0 d)))
            ⊆ dom (Sqlite.startTimes (Sqlite.run ops (Sqlite.mkAgent ∅ ∅ 0 d))))).
Proof.
  split; split_and!.
  - done.
  - apply im_step_inv.
  - intros ops. by apply im_run_inv.
  - done.
  - apply sq_step_inv.
  - intros ops d. by apply sq_run_inv.
Qed.

(** The invariant carried over one [End] from a state reached by a [Start]. *)
Lemma C10_durations_within_startTimes_witness :
  dom (InMemory.durations
         (InMemory.step pretty (InMemory.OpEnd "Login-I click submit-1" 90)
            (InMemory.run pretty [InMemory.OpStart "Login" "I click submit" 10]
               InMemory.NewVectorClockAgent)))
    ⊆ dom (InMemory.startTimes
             (InMemory.step pretty (InMemory.OpEnd "Login-I click submit-1" 90)
                (InMemory.run pretty [InMemory.OpStart "Login" "I click submit" 10]
                   InMemory.NewVectorClockAgent)))
  ∧ dom (Sqlite.durations
           (Sqlite.step
              (Sqlite.OpEnd "Login-I click submit-1" "Login" "I click submit" 90
                 (Sqlite.mkDriver None "2024-05-01 10:00:00"))
              (Sqlite.run [Sqlite.OpStart "Login" "I click submit" 10]
                 (Sqlite.mkAgent ∅ ∅ 0 (Sqlite.mkDB [] 0)))))
      ⊆ dom (Sqlite.startTimes
               (Sqlite.step
                  (Sqlite.OpEnd "Login-I click submit-1" "Login" "I click submit" 90
                     (Sqlite.mkDriver None "2024-05-01 10:00:00"))
                  (Sqlite.run [Sqlite.OpStart "Login" "I click submit" 10]
                     (Sqlite.mkAgent ∅ ∅ 0 (Sqlite.mkDB [] 0))))).
Proof.
  destruct (C10_durations_within_startTimes pretty)
    as [(_ & Him & Him') (_ & Hsq & Hsq')].
  split.
  - apply Him, Him'.
  - apply Hsq, Hsq'.
Defined.

(** ** C5: the duration of a step *)

(** C5.  Let [Start] return [stepID] at clock reading [t0], let any trace
    follow in which [stepID] is not handed out again (fewer than 2^64 further
    [Start] calls make sure of that, see [im_Start_id_not_returned]), and let
    [End(stepID)] read the clock at [t1].  The clock is Go's monotonic one:
    readings are non-negative [int64] nanoseconds and do not go back, so [t1]
    is at least [t0] plus the time [elapsed] between the two calls.  Then the
    duration recorded for [stepID] is [t1 - t0]; it is non-negative and at
    least [elapsed].  Both versions of the agent. *)
Theorem C5_duration_of_started_step
    (Duration_String : Z → string)
    (scenarioName stepText : string) (t0 t1 elapsed : Z)
    (v : InMemory.VectorClockAgent) (between : list InMemory.Op)
    (v' : Sqlite.VectorClockAgent) (between' : list Sqlite.Op)
    (drv : Sqlite.Driver) :
  (InMemory.Start scenarioName stepText t0 v).1
    ∉ InMemory.returned Duration_String between
        (InMemory.Start scenarioName stepText t0 v).2 →
  (Sqlite.Start scenarioName stepText t0 v').1
    ∉ Sqlite.returned between' (Sqlite.Start scenarioName stepText t0 v').2 →
  0 ≤ t0 → 0 ≤ elapsed → t0 + elapsed ≤ t1 → t1 < 2 ^ 63 →
  (let started := InMemory.Start scenarioName stepText t0 v in
   InMemory.durations
     (InMemory.End Duration_String started.1 t1
        (InMemory.run Duration_String between started.2)).1 !! started.1
   = Some (t1 - t0))
  ∧ (let started := Sqlite.Start scenarioName stepText t0 v' in
     Sqlite.durations
       (Sqlite.End started.1 scenarioName stepText t1 drv
          (Sqlite.run between' started.2)).1 !! started.1
     = Some (t1 - t0))
  ∧ 0 ≤ t1 - t0 ∧ elapsed ≤ t1 - t0.
Proof.
  intros Hb Hb' Ht0 Hel Ht1 Hmax. split_and!; [| |lia..].
  - cbv zeta. rewrite im_End_durations.
    rewrite im_run_startTimes_other by done.
    rewrite im_Start_startTimes, lookup_insert_eq, lookup_insert_eq.
    unfold Go.Since. rewrite subMono_exact by lia. done.
  - cbv zeta. rewrite sq_End_durations.
    rewrite sq_run_startTimes_other by done.
    rewrite sq_Start_startTimes, lookup_insert_eq, lookup_insert_eq.
    unfold Go.Since. rewrite subMono_exact by lia. done.
Qed.

(** The step of the feature file: 150 ms of work between [Start] and [End],
    while another step is started and ended. *)
Lemma C5_duration_of_started_step_witness :
  InMemory.durations
    (InMemory.End pretty "Login-I click submit-1" 150002000
       (InMemory.run pretty
          [InMemory.OpStart "Logout" "I click submit" 2000;
           InMemory.OpEnd "Logout-I click submit-2" 3000]
          (InMemory.Start "Login" "I click submit" 1000
             InMemory.NewVectorClockAgent).2)).1 !! "Login-I click submit-1"
  = Some 150001000
  ∧ 150000000 ≤ 150002000 - 1000.
Proof.
  pose proof (C5_duration_of_started_step pretty "Login" "I click submit"
    1000 150002000 150000000 InMemory.NewVectorClockAgent
    [InMemory.OpStart "Logout" "I click submit" 2000;
     InMemory.OpEnd "Logout-I click submit-2" 3000]
    (Sqlite.mkAgent ∅ ∅ 0 (Sqlite.mkDB [] 0)) []
    (Sqlite.mkDriver None "2024-05-01 10:00:00")) as H.
  destruct H as (H1 & _ & _ & H2).
  - vm_compute. intros [H|H]%elem_of_cons; [discriminate H|by apply elem_of_nil in H].
  - vm_compute. intros H. by apply elem_of_nil in H.
  - lia.
  - lia.
  - lia.
  - lia.
  - split; [exact H1|exact H2].
Defined.

(** ** C6: the life of a record *)




(** ** C7: a failed write does not disturb the agent *)

(** C7.  When the [INSERT] of [End] fails on a started step, [End] prints
    the failure and returns: the duration is stored in [durations], while
    [startTimes], the counter and the table are what they were.  The maps and
    the counter are the ones a successful write would have left. *)
Theorem C7_persistence_failure_not_raised
    (stepID scenarioName stepText : string) (now t0 : Z)
    (drv ok : Sqlite.Driver) (err : string) (v : Sqlite.VectorClockAgent) :
  Sqlite.startTimes v !! stepID = Some t0 →
  Sqlite.failure drv = Some err →
  Sqlite.End stepID scenarioName stepText now drv v
  = (Sqlite.mkAgent (Sqlite.startTimes v)
       (<[stepID := Go.Since now t0]> (Sqlite.durations v))
       (Sqlite.counter v) (Sqlite.db v),
     ["Failed to save step '" +:+ stepID +:+ "' to DB: " +:+ err +:+ Go.nl])
  ∧ (let failed := (Sqlite.End stepID scenarioName stepText now drv v).1 in
     let saved := (Sqlite.End stepID scenarioName stepText now ok v).1 in
     Sqlite.startTimes failed = Sqlite.startTimes saved
     ∧ Sqlite.durations failed = Sqlite.durations saved
     ∧ Sqlite.counter failed = Sqlite.counter saved).
Proof.
  intros Hx Hf. split.
  - unfold Sqlite.End. rewrite Hx. cbv zeta.
    by rewrite (insert_failure _ err).
  - cbv zeta. by rewrite !sq_End_startTimes, !sq_End_durations, !sq_End_counter.
Qed.

(** The database is locked when the step ends. *)
Lemma C7_persistence_failure_not_raised_witness :
  Sqlite.End "Login-I click submit-1" "Login" "I click submit" 150000010
    (Sqlite.mkDriver (Some "database is locked") "2024-05-01 10:00:00")
    (Sqlite.Start "Login" "I click submit" 10
       (Sqlite.mkAgent ∅ ∅ 0 (Sqlite.mkDB [] 0))).2
  = (Sqlite.mkAgent {["Login-I click submit-1" := 10]}
       {["Login-I click submit-1" := 150000000]} 1 (Sqlite.mkDB [] 0),
     ["Failed to save step 'Login-I click submit-1' to DB: database is locked"
        +:+ Go.nl]).
Proof.
  refine (proj1 (C7_persistence_failure_not_raised
    "Login-I click submit-1" "Login" "I click submit" 150000010 10
    (Sqlite.mkDriver (Some "database is locked") "2024-05-01 10:00:00")
    (Sqlite.mkDriver None "2024-05-01 10:00:00") "database is locked"
    (Sqlite.Start "Login" "I click submit" 10
       (Sqlite.mkAgent ∅ ∅ 0 (Sqlite.mkDB [] 0))).2 _ _)).
  - by vm_compute.
  - reflexivity.
Defined.

(** ** C8: the constructor panics on a storage failure *)

(** C8.  [NewVectorClockAgent] panics when the database cannot be opened and
    when the table cannot be created; no agent is returned then.  When it
    does return, both steps have succeeded and the agent is complete: empty
    maps, counter 0 and the handle on the opened database. *)
Theorem C8_constructor_panics_on_storage_failure
    (sql_Open : string → Sqlite.DB + string)
    (create_table : Sqlite.DB → option string) (dbPath : string) :
  (∀ err, sql_Open dbPath = inr err →
     Sqlite.NewVectorClockAgent sql_Open create_table dbPath
     = Sqlite.Panics ("failed to open SQLite database: " +:+ err))
  ∧ (∀ d err, sql_Open dbPath = inl d → create_table d = Some err →
       Sqlite.NewVectorClockAgent sql_Open create_table dbPath
       = Sqlite.Panics ("failed to create table: " +:+ err))
  ∧ (∀ v, Sqlite.NewVectorClockAgent sql_Open create_table dbPath
          = Sqlite.Returns v →
       ∃ d, sql_Open dbPath = inl d ∧ create_table d = None
            ∧ v = Sqlite.mkAgent ∅ ∅ 0 d).
Proof.
  split_and!.
  - intros err Ho. unfold Sqlite.NewVectorClockAgent. by rewrite Ho.
  - intros d err Ho Hc. unfold Sqlite.NewVectorClockAgent. by rewrite Ho, Hc.
  - apply sq_New_Returns.
Qed.

(** A file that cannot be opened, and a database on which [CREATE TABLE]
    fails. *)
Lemma C8_constructor_panics_witness :
  Sqlite.NewVectorClockAgent (λ _, inr "unable to open database file")
    (λ _, None) "step_timings.db"
  = Sqlite.Panics "failed to open SQLite database: unable to open database file"
  ∧ Sqlite.NewVectorClockAgent (λ _, inl (Sqlite.mkDB [] 0))
      (λ _, Some "attempt to write a readonly database") "step_timings.db"
    = Sqlite.Panics "failed to create table: attempt to write a readonly database".
Proof.
  split.
  - apply (proj1 (C8_constructor_panics_on_storage_failure
                    (λ _, inr "unable to open database file") (λ _, None)
                    "step_timings.db")).
    reflexivity.
  - apply (proj1 (proj2 (C8_constructor_panics_on_storage_failure
                    (λ _, inl (Sqlite.mkDB [] 0))
                    (λ _, Some "attempt to write a readonly database")
                    "step_timings.db")) (Sqlite.mkDB [] 0)); reflexivity.
Defined.

(** ** C3: the insert is idempotent on the step identifier *)



(** ** C9: what [Report] lists *)




(** * Further properties of the code *)

Ltac agent_simpl :=
  cbn [InMemory.run InMemory.returned InMemory.step InMemory.starts
       InMemory.is_start Sqlite.run Sqlite.returned Sqlite.step Sqlite.starts
       Sqlite.is_start].
Ltac agent_simpl_in H :=
  cbn [InMemory.run InMemory.returned InMemory.step InMemory.starts
       InMemory.is_start Sqlite.run Sqlite.returned Sqlite.step Sqlite.starts
       Sqlite.is_start] in H.

(** ** What the maps of the agent hold after a trace *)

Section AgentMaps.

Variable Duration_String : Z → string.

Lemma im_returned_length (ops : list InMemory.Op) (v : InMemory.VectorClockAgent) :
  length (InMemory.returned Duration_String ops v) = N.to_nat (InMemory.starts ops).
Proof.
  revert v. induction ops as [|op ops IH]; intros v; [done|].
  destruct op; agent_simpl; cbn [length]; rewrite IH; lia.
Qed.

Lemma sq_returned_length (ops : list Sqlite.Op) (v : Sqlite.VectorClockAgent) :
  length (Sqlite.returned ops v) = N.to_nat (Sqlite.starts ops).
Proof.
  revert v. induction ops as [|op ops IH]; intros v; [done|].
  destruct op; agent_simpl; cbn [length]; rewrite IH; lia.
Qed.

(** The start times after a trace belong to the identifiers that had one
    before and to those the trace returned. *)
Lemma im_run_startTimes_dom (ops : list InMemory.Op) (v : InMemory.VectorClockAgent) :
  dom (InMemory.startTimes (InMemory.run Duration_String ops v))
  = dom (InMemory.startTimes v)
      ∪ list_to_set (InMemory.returned Duration_String ops v).
Proof.
  revert v. induction ops as [|op ops IH]; intros v; agent_simpl.
  - rewrite list_to_set_nil. by rewrite (right_id_L ∅ (∪)).
  - destruct op as [s t now|id now|]; agent_simpl; rewrite IH.
    + rewrite im_Start_startTimes, dom_insert_L, list_to_set_cons.
      by rewrite (assoc_L (∪)), (comm_L (∪) {[_]}).
    + by rewrite im_End_startTimes.
    + done.
Qed.

Lemma sq_run_startTimes_dom (ops : list Sqlite.Op) (v : Sqlite.VectorClockAgent) :
  dom (Sqlite.startTimes (Sqlite.run ops v))
  = dom (Sqlite.startTimes v) ∪ list_to_set (Sqlite.returned ops v).
Proof.
  revert v. induction ops as [|op ops IH]; intros v; agent_simpl.
  - rewrite list_to_set_nil. by rewrite (right_id_L ∅ (∪)).
  - destruct op as [s t now|id s t now drv|]; agent_simpl; rewrite IH.
    + rewrite sq_Start_startTimes, dom_insert_L, list_to_set_cons.
      by rewrite (assoc_L (∪)), (comm_L (∪) {[_]}).
    + by rewrite sq_End_startTimes.
    + done.
Qed.

End AgentMaps.

(** X1.  The identifier [generateStepID] builds determines the counter value
    it was built from: two calls, on whatever names and agents, that produce
    the same identifier have left their counters at the same value.  Both
    versions of the agent. *)
Theorem X1_step_id_determines_count
    (s t s' t' : string)
    (v v' : InMemory.VectorClockAgent) (w w' : Sqlite.VectorClockAgent) :
  ((InMemory.generateStepID s t v).1 = (InMemory.generateStepID s' t' v').1 →
   InMemory.counter (InMemory.generateStepID s t v).2
   = InMemory.counter (InMemory.generateStepID s' t' v').2)
  ∧ ((Sqlite.generateStepID s t w).1 = (Sqlite.generateStepID s' t' w').1 →
     Sqlite.counter (Sqlite.generateStepID s t w).2
     = Sqlite.counter (Sqlite.generateStepID s' t' w').2).
Proof.
  split; intros H; cbn in H |- *; by apply sprintf_stepID_count_inj in H.
Qed.

(** Two calls with different names and the same identifier. *)
Lemma X1_step_id_determines_count_witness :
  InMemory.counter
    (InMemory.generateStepID "a-b" "c" (InMemory.mkAgent ∅ ∅ 6)).2
  = InMemory.counter
      (InMemory.generateStepID "a" "b-c" (InMemory.mkAgent ∅ ∅ 6)).2.
Proof.
  apply (proj1 (X1_step_id_determines_count "a-b" "c" "a" "b-c"
                  (InMemory.mkAgent ∅ ∅ 6) (InMemory.mkAgent ∅ ∅ 6)
                  (Sqlite.mkAgent ∅ ∅ 6 (Sqlite.mkDB [] 0))
                  (Sqlite.mkAgent ∅ ∅ 6 (Sqlite.mkDB [] 0)))).
  reflexivity.
Defined.

(** X2.  The identifier does not determine the names it was built from: the
    separator may also occur inside a name, so the scenario [a-b] with the
    step [c] and the scenario [a] with the step [b-c] get the same
    identifier at the same counter value.  Both versions of the agent. *)
Theorem X2_step_id_names_ambiguous
    (a b c : string) (v : InMemory.VectorClockAgent) (w : Sqlite.VectorClockAgent) :
  (InMemory.generateStepID (a +:+ "-" +:+ b) c v).1
  = (InMemory.generateStepID a (b +:+ "-" +:+ c) v).1
  ∧ (Sqlite.generateStepID (a +:+ "-" +:+ b) c w).1
    = (Sqlite.generateStepID a (b +:+ "-" +:+ c) w).1.
Proof.
  split; cbn; unfold sprintf_stepID; by rewrite !string_app_assoc.
Qed.

(** X3.  On a fresh agent the identifiers that have a start time are exactly
    the ones the [Start] calls of the trace returned, and as long as the
    trace makes at most 2^64 [Start] calls there are as many of them as
    [Start] calls: no start is lost or merged with another.  Both versions of
    the agent. *)
Theorem X3_every_start_is_recorded
    (Duration_String : Z → string)
    (ops : list InMemory.Op) (ops' : list Sqlite.Op) (d : Sqlite.DB) :
  ((∀ x, is_Some (InMemory.startTimes
                    (InMemory.run Duration_String ops InMemory.NewVectorClockAgent)
                    !! x)
         ↔ x ∈ InMemory.returned Duration_String ops InMemory.NewVectorClockAgent)
   ∧ ((InMemory.starts ops ≤ 2 ^ 64)%N →
      size (InMemory.startTimes
              (InMemory.run Duration_String ops InMemory.NewVectorClockAgent))
      = N.to_nat (InMemory.starts ops)))
  ∧ ((∀ x, is_Some (Sqlite.startTimes
                      (Sqlite.run ops' (Sqlite.mkAgent ∅ ∅ 0 d)) !! x)
           ↔ x ∈ Sqlite.returned ops' (Sqlite.mkAgent ∅ ∅ 0 d))
     ∧ ((Sqlite.starts ops' ≤ 2 ^ 64)%N →
        size (Sqlite.startTimes (Sqlite.run ops' (Sqlite.mkAgent ∅ ∅ 0 d)))
        = N.to_nat (Sqlite.starts ops'))).
Proof.
  split; split.
  - intros x. rewrite <-elem_of_dom, im_run_startTimes_dom.
    cbn [InMemory.startTimes InMemory.NewVectorClockAgent].
    rewrite dom_empty_L, (left_id_L ∅ (∪)). apply elem_of_list_to_set.
  - intros Hle. rewrite <-size_dom, im_run_startTimes_dom.
    cbn [InMemory.startTimes InMemory.NewVectorClockAgent].
    rewrite dom_empty_L, (left_id_L ∅ (∪)).
    rewrite size_list_to_set by by apply im_returned_NoDup.
    apply im_returned_length.
  - intros x. rewrite <-elem_of_dom, sq_run_startTimes_dom.
    cbn [Sqlite.startTimes]. rewrite dom_empty_L, (left_id_L ∅ (∪)).
    apply elem_of_list_to_set.
  - intros Hle. rewrite <-size_dom, sq_run_startTimes_dom.
    cbn [Sqlite.startTimes]. rewrite dom_empty_L, (left_id_L ∅ (∪)).
    rewrite size_list_to_set by by apply sq_returned_NoDup.
    apply sq_returned_length.
Qed.

(** Three starts of the same step, one of them ended in between. *)
Lemma X3_every_start_is_recorded_witness :
  size (InMemory.startTimes
          (InMemory.run pretty
             [InMemory.OpStart "Login" "I click submit" 10;
              InMemory.OpStart "Login" "I click submit" 20;
              InMemory.OpEnd "Login-I click submit-1" 30;
              InMemory.OpStart "Login" "I click submit" 40]
             InMemory.NewVectorClockAgent))
  = 3%nat.
Proof.
  apply (proj2 (proj1 (X3_every_start_is_recorded pretty
    [InMemory.OpStart "Login" "I click submit" 10;
     InMemory.OpStart "Login" "I click submit" 20;
     InMemory.OpEnd "Login-I click submit-1" 30;
     InMemory.OpStart "Login" "I click submit" 40] [] (Sqlite.mkDB [] 0)))).
  vm_compute. discriminate.
Defined.

(** ** The table across a run *)

Section TableAcrossRuns.

Import Sqlite.

Lemma insert_rows_of_present (drv : Driver) (x stepID s t : string) (ms : Z) (d : DB) :
  x ∈ step_id <$> step_timings d →
  rows_of x (Exec_insert_or_ignore drv stepID s t ms d).1 = rows_of x d.
Proof.
  intros Hx. unfold Exec_insert_or_ignore. destruct (failure drv); [done|].
  destruct (existsb _ _) eqn:E; [done|]. unfold rows_of. cbn [fst step_timings].
  rewrite List.filter_app. cbn [List.filter]. unfold has_step_id at 2.
  cbn [step_id]. rewrite bool_decide_eq_false_2, app_nil_r; [done|].
  intros ->. apply existsb_has_step_id in Hx. congruence.
Qed.

Lemma insert_keeps_step_id (drv : Driver) (x stepID s t : string) (ms : Z) (d : DB) :
  x ∈ step_id <$> step_timings d →
  x ∈ step_id <$> step_timings (Exec_insert_or_ignore drv stepID s t ms d).1.
Proof.
  intros Hx. destruct (insert_prefix drv stepID s t ms d) as [k ->].
  rewrite fmap_app. apply elem_of_app. by left.
Qed.

Lemma sq_step_rows_of_present (op : Op) (v : VectorClockAgent) (x : string) :
  x ∈ step_id <$> step_timings (db v) →
  rows_of x (db (step op v)) = rows_of x (db v)
  ∧ x ∈ step_id <$> step_timings (db (step op v)).
Proof.
  intros Hx. destruct op as [s t now|id s t now drv|]; agent_simpl; [done| |done].
  rewrite sq_End_db. destruct (startTimes v !! id); [|done].
  split; [by apply insert_rows_of_present|by apply insert_keeps_step_id].
Qed.

Lemma sq_run_durations_mono (ops : list Op) (v : VectorClockAgent) (x : string) :
  is_Some (durations v !! x) → is_Some (durations (run ops v) !! x).
Proof.
  revert v. induction ops as [|op ops IH]; intros v Hx; agent_simpl; [done|].
  by apply IH, sq_step_durations_mono.
Qed.

(** What a statement that ran on a table without the identifier appends. *)
Lemma insert_in_rows (drv : Driver) (stepID s t : string) (ms : Z) (d : DB) (r : Row) :
  r ∈ step_timings (Exec_insert_or_ignore drv stepID s t ms d).1 →
  r ∈ step_timings d
  ∨ (failure drv = None
     ∧ r = mkRow (sqlite_sequence d + 1) stepID s t ms (CURRENT_TIMESTAMP drv)).
Proof.
  unfold Exec_insert_or_ignore. destruct (failure drv) eqn:Ef; [by left|].
  destruct (existsb _ _); [by left|]. cbn [fst step_timings].
  intros [Hr|Hr]%elem_of_app; [by left|].
  apply list_elem_of_singleton in Hr. by right.
Qed.

End TableAcrossRuns.

(** X4.  Rows of a step that is already in the table are never touched: after
    any trace the table holds, for such an identifier, exactly the rows it
    held before.  A timing that a later [End] computes for that identifier is
    not written. *)
Theorem X4_existing_rows_are_kept
    (ops : list Sqlite.Op) (v : Sqlite.VectorClockAgent) (stepID : string) :
  stepID ∈ Sqlite.step_id <$> Sqlite.step_timings (Sqlite.db v) →
  Sqlite.rows_of stepID (Sqlite.db (Sqlite.run ops v))
  = Sqlite.rows_of stepID (Sqlite.db v).
Proof.
  revert v. induction ops as [|op ops IH]; intros v Hx; agent_simpl; [done|].
  destruct (sq_step_rows_of_present op v stepID Hx) as [<- Hx']. by apply IH.
Qed.

(** A table that holds a 150 ms row for the step, and a run that measures
    170 ms for the same identifier. *)
Lemma X4_existing_rows_are_kept_witness :
  Sqlite.rows_of "Login-I click submit-1"
    (Sqlite.db
       (Sqlite.run
          [Sqlite.OpStart "Login" "I click submit" 10;
           Sqlite.OpEnd "Login-I click submit-1" "Login" "I click submit"
             170000010 (Sqlite.mkDriver None "2024-05-02 09:00:00")]
          (Sqlite.mkAgent ∅ ∅ 0
             (Sqlite.mkDB
                [Sqlite.mkRow 1 "Login-I click submit-1" "Login"
                   "I click submit" 150 "2024-05-01 10:00:00"] 1))))
  = [Sqlite.mkRow 1 "Login-I click submit-1" "Login" "I click submit" 150
       "2024-05-01 10:00:00"].
Proof.
  apply (X4_existing_rows_are_kept
    [Sqlite.OpStart "Login" "I click submit" 10;
     Sqlite.OpEnd "Login-I click submit-1" "Login" "I click submit"
       170000010 (Sqlite.mkDriver None "2024-05-02 09:00:00")]
    (Sqlite.mkAgent ∅ ∅ 0
       (Sqlite.mkDB
          [Sqlite.mkRow 1 "Login-I click submit-1" "Login"
             "I click submit" 150 "2024-05-01 10:00:00"] 1))
    "Login-I click submit-1").
  vm_compute. left.
Defined.



(** X6.  What [End] persists.  For a started step that has no row yet, a
    clock that did not go back and a write that runs, [End] appends one row:
    it carries the identifier, the scenario name and step text passed to
    [End], and the duration cut down to whole milliseconds, so the table
    loses less than a millisecond of what the map holds (a step shorter than
    a millisecond is stored as 0). *)
Theorem X6_End_persists_whole_milliseconds
    (stepID scenarioName stepText : string) (t0 t1 : Z)
    (drv : Sqlite.Driver) (v : Sqlite.VectorClockAgent) :
  Sqlite.startTimes v !! stepID = Some t0 →
  stepID ∉ Sqlite.step_id <$> Sqlite.step_timings (Sqlite.db v) →
  Sqlite.failure drv = None →
  0 ≤ t0 → t0 ≤ t1 → t1 < 2 ^ 63 →
  let ended := (Sqlite.End stepID scenarioName stepText t1 drv v).1 in
  ∃ ms,
    Sqlite.step_timings (Sqlite.db ended)
    = Sqlite.step_timings (Sqlite.db v)
        ++ [Sqlite.mkRow (Sqlite.sqlite_sequence (Sqlite.db v) + 1) stepID
              scenarioName stepText ms (Sqlite.CURRENT_TIMESTAMP drv)]
    ∧ Sqlite.durations ended !! stepID = Some (t1 - t0)
    ∧ 1000000 * ms ≤ t1 - t0 < 1000000 * ms + 1000000.
Proof.
  intros Hx Hnin Hf Ht0 Ht1 Hmax. cbv zeta.
  exists ((t1 - t0) ÷ 1000000).
  rewrite sq_End_db, sq_End_durations, Hx, lookup_insert_eq.
  rewrite insert_absent by done. unfold Go.Since, Go.Milliseconds.
  rewrite subMono_exact by lia. split_and!; [done..| |].
  - rewrite Z.quot_div_nonneg by lia. apply Z.mul_div_le. lia.
  - rewrite Z.quot_div_nonneg by lia.
    pose proof (Z.mul_succ_div_gt (t1 - t0) 1000000). lia.
Qed.

(** A step of 150.9 ms is stored as 150. *)
Lemma X6_End_persists_whole_milliseconds_witness :
  ∃ ms,
    Sqlite.step_timings
      (Sqlite.db
         (Sqlite.End "Login-I click submit-1" "Login" "I click submit" 150900010
            (Sqlite.mkDriver None "2024-05-01 10:00:00")
            (Sqlite.Start "Login" "I click submit" 10
               (Sqlite.mkAgent ∅ ∅ 0 (Sqlite.mkDB [] 0))).2).1)
    = [] ++ [Sqlite.mkRow (0 + 1) "Login-I click submit-1" "Login"
               "I click submit" ms "2024-05-01 10:00:00"]
    ∧ Sqlite.durations
        (Sqlite.End "Login-I click submit-1" "Login" "I click submit" 150900010
           (Sqlite.mkDriver None "2024-05-01 10:00:00")
           (Sqlite.Start "Login" "I click submit" 10
              (Sqlite.mkAgent ∅ ∅ 0 (Sqlite.mkDB [] 0))).2).1
        !! "Login-I click submit-1"
      = Some (150900010 - 10)
    ∧ 1000000 * ms ≤ 150900010 - 10 < 1000000 * ms + 1000000.
Proof.
  apply (X6_End_persists_whole_milliseconds "Login-I click submit-1" "Login"
           "I click submit" 10 150900010
           (Sqlite.mkDriver None "2024-05-01 10:00:00")
           (Sqlite.Start "Login" "I click submit" 10
              (Sqlite.mkAgent ∅ ∅ 0 (Sqlite.mkDB [] 0))).2).
  - by vm_compute.
  - vm_compute. intros H. by apply elem_of_nil in H.
  - reflexivity.
  - lia.
  - lia.
  - lia.
Defined.

(** X7.  When a started step that has no row yet is ended twice, with both
    writes running, the table and the map disagree afterwards: the table
    keeps the row of the first [End], with the first duration, and the map
    holds the duration of the second. *)
Theorem X7_repeated_End_table_and_map_diverge
    (stepID s1 x1 s2 x2 : string) (t0 t1 t2 : Z)
    (drv1 drv2 : Sqlite.Driver) (v : Sqlite.VectorClockAgent) :
  Sqlite.startTimes v !! stepID = Some t0 →
  stepID ∉ Sqlite.step_id <$> Sqlite.step_timings (Sqlite.db v) →
  Sqlite.failure drv1 = None →
  Sqlite.failure drv2 = None →
  let first := (Sqlite.End stepID s1 x1 t1 drv1 v).1 in
  let second := (Sqlite.End stepID s2 x2 t2 drv2 first).1 in
  Sqlite.rows_of stepID (Sqlite.db second)
  = [Sqlite.mkRow (Sqlite.sqlite_sequence (Sqlite.db v) + 1) stepID s1 x1
       (Go.Milliseconds (Go.Since t1 t0)) (Sqlite.CURRENT_TIMESTAMP drv1)]
  ∧ Sqlite.durations second !! stepID = Some (Go.Since t2 t0).
Proof.
  intros Hx Hnin Hf1 Hf2. cbv zeta.
  rewrite sq_End_durations, (sq_End_db _ s2), sq_End_startTimes, Hx.
  rewrite lookup_insert_eq. split; [|done].
  rewrite sq_End_db, Hx.
  pose proof (insert_stores drv1 stepID s1 x1
                (Go.Milliseconds (Go.Since t1 t0)) (Sqlite.db v) Hf1) as Hin.
  rewrite insert_present by done. cbn [fst].
  rewrite insert_absent by done. unfold Sqlite.rows_of. cbn [fst Sqlite.step_timings].
  rewrite List.filter_app, rows_of_absent by done.
  cbn [List.filter app]. unfold Sqlite.has_step_id. cbn [Sqlite.step_id].
  by rewrite bool_decide_eq_true_2.
Qed.

(** The step ended after 5 ms and again after 9 ms. *)
Lemma X7_repeated_End_witness :
  Sqlite.rows_of "s-t-1"
    (Sqlite.db
       (Sqlite.run
          [Sqlite.OpStart "s" "t" 0;
           Sqlite.OpEnd "s-t-1" "s" "t" 5000000 (Sqlite.mkDriver None "10:00:00");
           Sqlite.OpEnd "s-t-1" "s" "t" 9000000 (Sqlite.mkDriver None "10:00:01")]
          (Sqlite.mkAgent ∅ ∅ 0 (Sqlite.mkDB [] 0))))
  = [Sqlite.mkRow 1 "s-t-1" "s" "t" 5 "10:00:00"]
  ∧ Sqlite.durations
      (Sqlite.run
         [Sqlite.OpStart "s" "t" 0;
          Sqlite.OpEnd "s-t-1" "s" "t" 5000000 (Sqlite.mkDriver None "10:00:00");
          Sqlite.OpEnd "s-t-1" "s" "t" 9000000 (Sqlite.mkDriver None "10:00:01")]
         (Sqlite.mkAgent ∅ ∅ 0 (Sqlite.mkDB [] 0))) !! "s-t-1"
    = Some 9000000.
Proof.
  apply (X7_repeated_End_table_and_map_diverge "s-t-1" "s" "t" "s" "t"
           0 5000000 9000000 (Sqlite.mkDriver None "10:00:00")
           (Sqlite.mkDriver None "10:00:01")
           (Sqlite.Start "s" "t" 0 (Sqlite.mkAgent ∅ ∅ 0 (Sqlite.mkDB [] 0))).2).
  - by vm_compute.
  - vm_compute. intros H. by apply elem_of_nil in H.
  - reflexivity.
  - reflexivity.
Defined.

(** X8.  Where the rows of the table come from.  After any trace, a row is
    either one the table held before or one written by an [End] call of the
    trace whose write ran: it carries the identifier, scenario name and step
    text of that call, and its identifier has a duration in the map.  [Start]
    and [Report] write nothing. *)
Theorem X8_rows_come_from_End
    (ops : list Sqlite.Op) (v : Sqlite.VectorClockAgent) (r : Sqlite.Row) :
  r ∈ Sqlite.step_timings (Sqlite.db (Sqlite.run ops v)) →
  r ∈ Sqlite.step_timings (Sqlite.db v)
  ∨ (∃ now drv,
       Sqlite.OpEnd (Sqlite.step_id r) (Sqlite.scenario_name r)
         (Sqlite.step_text r) now drv ∈ ops
       ∧ Sqlite.failure drv = None
       ∧ Sqlite.created_at r = Sqlite.CURRENT_TIMESTAMP drv
       ∧ is_Some (Sqlite.durations (Sqlite.run ops v) !! Sqlite.step_id r)).
Proof.
  revert v. induction ops as [|op ops IH]; intros v; agent_simpl; [by left|].
  intros [Hr|(now & drv & Hin & Hf & Hc & Hd)]%IH.
  - destruct op as [s t now|id s t now drv|]; agent_simpl_in Hr; [by left| |by left].
    rewrite sq_End_db in Hr. destruct (Sqlite.startTimes v !! id) eqn:Ex; [|by left].
    apply insert_in_rows in Hr as [Hr|[Hf ->]]; [by left|].
    right. exists now, drv. cbn. split_and!; [by left|done..|].
    apply sq_run_durations_mono. rewrite sq_End_durations, Ex, lookup_insert_eq.
    by eexists.
  - right. exists now, drv. split_and!; [by right|done..].
Qed.

(** The one row of a run on an empty table. *)
Lemma X8_rows_come_from_End_witness :
  Sqlite.mkRow 1 "s-t-1" "s" "t" 5 "10:00:00" ∈ []
  ∨ (∃ now drv,
       Sqlite.OpEnd "s-t-1" "s" "t" now drv
         ∈ [Sqlite.OpStart "s" "t" 0;
            Sqlite.OpEnd "s-t-1" "s" "t" 5000000 (Sqlite.mkDriver None "10:00:00")]
       ∧ Sqlite.failure drv = None
       ∧ "10:00:00" = Sqlite.CURRENT_TIMESTAMP drv
       ∧ is_Some
           (Sqlite.durations
              (Sqlite.run
                 [Sqlite.OpStart "s" "t" 0;
                  Sqlite.OpEnd "s-t-1" "s" "t" 5000000
                    (Sqlite.mkDriver None "10:00:00")]
                 (Sqlite.mkAgent ∅ ∅ 0 (Sqlite.mkDB [] 0))) !! "s-t-1")).
Proof.
  apply (X8_rows_come_from_End
    [Sqlite.OpStart "s" "t" 0;
     Sqlite.OpEnd "s-t-1" "s" "t" 5000000 (Sqlite.mkDriver None "10:00:00")]
    (Sqlite.mkAgent ∅ ∅ 0 (Sqlite.mkDB [] 0))
    (Sqlite.mkRow 1 "s-t-1" "s" "t" 5 "10:00:00")).
  vm_compute. left.
Defined.


(** ** The hooks of [src/main.go] *)

Section HookFacts.

Import InMemoryHooks.
Variable Duration_String : Z → string.

Local Abbreviation AfterStep := (AfterStep Duration_String).
Local Abbreviation fire := (fire Duration_String).
Local Abbreviation fire_all := (fire_all Duration_String).
Local Abbreviation calls := (calls Duration_String).
Local Abbreviation ended := (ended Duration_String).
Local Abbreviation returned := (InMemory.returned Duration_String).
Local Abbreviation run := (InMemory.run Duration_String).

Ltac hook_simpl :=
  cbn [InMemoryHooks.fire_all InMemoryHooks.calls InMemoryHooks.ended
       InMemoryHooks.befores InMemoryHooks.fire InMemory.run InMemory.returned
       InMemory.step InMemory.starts InMemory.is_start fst snd].

Lemma hk_AfterStep_Some (step : Step) (now : Z) (c : Closure)
    (v : InMemory.VectorClockAgent) (stepID : string) :
  stepIDs c !! addr step = Some stepID →
  AfterStep step now (c, v)
  = ((mkClosure (scenarioName c) (delete (addr step) (stepIDs c)),
      (InMemory.End Duration_String stepID now v).1),
     (InMemory.End Duration_String stepID now v).2).
Proof. unfold InMemoryHooks.AfterStep. cbn [fst snd]. by intros ->. Qed.

Lemma hk_AfterStep_None (step : Step) (now : Z) (c : Closure)
    (v : InMemory.VectorClockAgent) :
  stepIDs c !! addr step = None →
  AfterStep step now (c, v)
  = ((c, v), ["Step ID not found for step: " +:+ Text step +:+ Go.nl]).
Proof. unfold InMemoryHooks.AfterStep. cbn [fst snd]. by intros ->. Qed.

(** The agent after a sequence of hooks is the agent after the calls the
    hooks made. *)
Lemma hk_agent_run (hs : list Hook) (c : Closure) (v : InMemory.VectorClockAgent) :
  (fire_all hs (c, v)).2 = run (calls hs (c, v)) v.
Proof.
  revert c v. induction hs as [|h hs IH]; intros c v; [done|].
  destruct h as [Name|step now|step now]; hook_simpl.
  - apply IH.
  - unfold InMemoryHooks.BeforeStep. cbn [fst snd]. apply IH.
  - destruct (stepIDs c !! addr step) as [stepID|] eqn:E.
    + rewrite (hk_AfterStep_Some _ _ _ _ stepID) by done. hook_simpl. apply IH.
    + rewrite hk_AfterStep_None by done. hook_simpl. apply IH.
Qed.

Lemma hk_calls_starts (hs : list Hook) (c : Closure) (v : InMemory.VectorClockAgent) :
  InMemory.starts (calls hs (c, v)) = befores hs.
Proof.
  revert c v. induction hs as [|h hs IH]; intros c v; [done|].
  destruct h as [Name|step now|step now]; hook_simpl.
  - apply IH.
  - unfold InMemoryHooks.BeforeStep. cbn [fst snd]. by rewrite IH.
  - destruct (stepIDs c !! addr step) as [stepID|] eqn:E.
    + rewrite (hk_AfterStep_Some _ _ _ _ stepID) by done. hook_simpl. by rewrite IH.
    + rewrite hk_AfterStep_None by done. hook_simpl. apply IH.
Qed.

Lemma hk_fire_held (h : Hook) (w : Closure * InMemory.VectorClockAgent) :
  held_are_started w → held_are_started (fire h w).
Proof.
  destruct w as [c v]. unfold held_are_started. intros Hw.
  destruct h as [Name|step now|step now]; hook_simpl.
  - done.
  - unfold InMemoryHooks.BeforeStep. cbn [fst snd stepIDs]. intros a x.
    rewrite im_Start_startTimes.
    destruct (decide (addr step = a)) as [<-|Hne].
    + rewrite lookup_insert_eq. intros [= <-]. rewrite lookup_insert_eq. by eexists.
    + rewrite lookup_insert_ne by done. intros Hx%Hw. cbn [fst snd] in Hx.
      destruct (decide ((InMemory.Start (scenarioName c) (Text step) now v).1 = x))
        as [<-|Hne'].
      * rewrite lookup_insert_eq. by eexists.
      * by rewrite lookup_insert_ne.
  - destruct (stepIDs c !! addr step) as [stepID|] eqn:E.
    + rewrite (hk_AfterStep_Some _ _ _ _ stepID) by done. cbn [fst snd stepIDs].
      intros a x [_ Hx]%lookup_delete_Some. rewrite im_End_startTimes.
      by apply (Hw a).
    + rewrite hk_AfterStep_None by done. exact Hw.
Qed.

Lemma hk_fire_all_held (hs : list Hook) (w : Closure * InMemory.VectorClockAgent) :
  held_are_started w → held_are_started (fire_all hs w).
Proof.
  revert w. induction hs as [|h hs IH]; intros w Hw; [done|].
  hook_simpl. by apply IH, hk_fire_held.
Qed.

(** The identifiers passed to [End] are pairwise distinct as long as the
    closure holds each identifier for one step only, holds none that will be
    returned again, and the identifiers still to be returned are distinct. *)
Lemma hk_ended_spec (hs : list Hook) (c : Closure) (v : InMemory.VectorClockAgent) :
  (∀ a b x, stepIDs c !! a = Some x → stepIDs c !! b = Some x → a = b) →
  (∀ a x, stepIDs c !! a = Some x → x ∉ returned (calls hs (c, v)) v) →
  NoDup (returned (calls hs (c, v)) v) →
  NoDup (ended hs (c, v))
  ∧ ∀ x, x ∈ ended hs (c, v) →
      (∃ a, stepIDs c !! a = Some x) ∨ x ∈ returned (calls hs (c, v)) v.
Proof.
  revert c v. induction hs as [|h hs IH]; intros c v Hinj Hfut Hnd.
  { split; [constructor|]. by intros x ?%elem_of_nil. }
  destruct h as [Name|step now|step now]; hook_simpl.
  - apply (IH (BeforeScenario Name c) v); done.
  - revert Hfut Hnd. hook_simpl. unfold InMemoryHooks.BeforeStep. cbn [fst snd].
    set (id := (InMemory.Start (scenarioName c) (Text step) now v).1).
    set (v' := (InMemory.Start (scenarioName c) (Text step) now v).2).
    set (c' := mkClosure (scenarioName c) (<[addr step := id]> (stepIDs c))).
    intros Hfut [Hid Hnd]%NoDup_cons.
    destruct (IH c' v') as [IH1 IH2].
    + intros a b x. cbn [stepIDs c'].
      destruct (decide (addr step = a)) as [<-|Ha];
        destruct (decide (addr step = b)) as [<-|Hb];
        rewrite ?lookup_insert_eq, ?lookup_insert_ne by done; try done.
      * intros [= <-] Hb'. destruct (Hfut _ _ Hb'). left.
      * intros Ha' [= <-]. destruct (Hfut _ _ Ha'). left.
      * apply Hinj.
    + intros a x. cbn [stepIDs c'].
      destruct (decide (addr step = a)) as [<-|Ha].
      * rewrite lookup_insert_eq. by intros [= <-].
      * rewrite lookup_insert_ne by done. intros Hx Hin.
        destruct (Hfut _ _ Hx). by right.
    + done.
    + split; [done|]. intros x [[a Hx]|Hx]%IH2; [|right; by right].
      cbn [stepIDs c'] in Hx. destruct (decide (addr step = a)) as [<-|Ha].
      * rewrite lookup_insert_eq in Hx. injection Hx as <-. right. left.
      * rewrite lookup_insert_ne in Hx by done. left. by exists a.
  - destruct (stepIDs c !! addr step) as [stepID|] eqn:E.
    + revert Hfut Hnd. hook_simpl. rewrite E.
      rewrite (hk_AfterStep_Some _ _ _ _ stepID) by done. hook_simpl.
      set (v' := (InMemory.End Duration_String stepID now v).1).
      set (c' := mkClosure (scenarioName c) (delete (addr step) (stepIDs c))).
      intros Hfut Hnd. destruct (IH c' v') as [IH1 IH2].
      * intros a b x. cbn [stepIDs c'].
        intros [_ Ha]%lookup_delete_Some [_ Hb]%lookup_delete_Some.
        by apply (Hinj a b x).
      * intros a x. cbn [stepIDs c']. intros [_ Ha]%lookup_delete_Some.
        by apply (Hfut a).
      * done.
      * split.
        -- constructor; [|done].
           intros [[a Ha]|Hx]%IH2.
           ++ cbn [stepIDs c'] in Ha. apply lookup_delete_Some in Ha as [Hne Ha].
              by destruct Hne; apply (Hinj _ _ stepID).
           ++ by destruct (Hfut _ _ E).
        -- intros x [->|[[a Ha]|Hx]%IH2]%elem_of_cons.
           ++ left. by exists (addr step).
           ++ cbn [stepIDs c'] in Ha. apply lookup_delete_Some in Ha as [_ Ha].
              left. by exists a.
           ++ by right.
    + revert Hfut Hnd. hook_simpl. rewrite E, hk_AfterStep_None by done.
      cbn [fst snd]. intros Hfut Hnd. by apply IH.
Qed.

(** A sequence of hooks leaves alone the entry of a step it does not
    mention. *)
Lemma hk_stepIDs_untouched (hs : list Hook) (w : Closure * InMemory.VectorClockAgent)
    (a : positive) :
  (∀ h, h ∈ hs → hook_addr h ≠ Some a) →
  stepIDs (fire_all hs w).1 !! a = stepIDs w.1 !! a.
Proof.
  revert w. induction hs as [|h hs IH]; intros [c v] Hhs; [done|].
  hook_simpl. rewrite IH by (intros h' Hh'; apply Hhs; by right).
  assert (hook_addr h ≠ Some a) as Hh by (apply Hhs; left).
  destruct h as [Name|step now|step now]; hook_simpl; cbn [hook_addr] in Hh.
  - done.
  - unfold InMemoryHooks.BeforeStep. cbn [fst snd stepIDs].
    rewrite lookup_insert_ne; [done|congruence].
  - destruct (stepIDs c !! addr step) as [stepID|] eqn:E.
    + rewrite (hk_AfterStep_Some _ _ _ _ stepID) by done. cbn [fst snd stepIDs].
      rewrite lookup_delete_ne; [done|congruence].
    + by rewrite hk_AfterStep_None.
Qed.

(** The durations after a sequence of hooks belong to the identifiers that
    had one before and to those the hooks passed to [End]. *)
Lemma hk_durations_dom (hs : list Hook) (w : Closure * InMemory.VectorClockAgent) :
  held_are_started w →
  dom (InMemory.durations (fire_all hs w).2)
  = dom (InMemory.durations w.2) ∪ list_to_set (ended hs w).
Proof.
  revert w. induction hs as [|h hs IH]; intros [c v] Hw.
  { hook_simpl. by rewrite list_to_set_nil, (right_id_L ∅ (∪)). }
  pose proof (hk_fire_held h _ Hw) as Hw'.
  destruct h as [Name|step now|step now]; hook_simpl.
  - by rewrite IH.
  - rewrite IH by done. unfold InMemoryHooks.BeforeStep. cbn [fst snd].
    by rewrite im_Start_durations.
  - destruct (stepIDs c !! addr step) as [stepID|] eqn:E.
    + cbn [InMemoryHooks.fire] in Hw'.
      rewrite (hk_AfterStep_Some _ _ _ _ stepID) in Hw' |- * by done.
      cbn [fst snd] in Hw' |- *. rewrite IH by done. cbn [fst snd].
      rewrite im_End_durations. destruct (Hw _ _ E) as [t0 Ht0].
      cbn [fst snd] in Ht0. rewrite Ht0.
      rewrite dom_insert_L, list_to_set_cons.
      by rewrite (assoc_L (∪)), (comm_L (∪) {[_]}).
    + rewrite hk_AfterStep_None by done. cbn [fst snd]. by rewrite IH.
Qed.

End HookFacts.

(** X10.  The hooks never run into the missing start time of [End].  After
    any sequence of hooks on the variables of a new [InitializeScenario], on
    whatever agent, a step the closure holds an identifier for has a start
    time: its [stepCtx.After] stores the duration and prints the one line
    [Step ... took ...]. *)
Theorem X10_AfterStep_finds_start_time
    (Duration_String : Z → string) (hs : list InMemoryHooks.Hook)
    (v : InMemory.VectorClockAgent) (step : Step) (now : Z) (stepID : string) :
  let w := InMemoryHooks.fire_all Duration_String hs (InitializeScenario, v) in
  stepIDs w.1 !! addr step = Some stepID →
  ∃ t0,
    InMemory.startTimes w.2 !! stepID = Some t0
    ∧ InMemoryHooks.AfterStep Duration_String step now w
      = ((mkClosure (scenarioName w.1) (delete (addr step) (stepIDs w.1)),
          InMemory.mkAgent (InMemory.startTimes w.2)
            (<[stepID := Go.Since now t0]> (InMemory.durations w.2))
            (InMemory.counter w.2)),
         ["Step '" +:+ stepID +:+ "' took "
            +:+ Duration_String (Go.Since now t0) +:+ Go.nl]).
Proof.
  cbv zeta. intros Hid.
  assert (InMemoryHooks.held_are_started
            (InMemoryHooks.fire_all Duration_String hs (InitializeScenario, v)))
    as Hheld.
  { apply hk_fire_all_held. intros a x Hx. cbn in Hx.
    by rewrite lookup_empty in Hx. }
  destruct (Hheld _ _ Hid) as [t0 Ht0]. exists t0. split; [done|].
  destruct (InMemoryHooks.fire_all Duration_String hs (InitializeScenario, v))
    as [c' v'].
  cbn [fst snd] in *. rewrite (hk_AfterStep_Some _ _ _ _ _ stepID) by done.
  unfold InMemory.End. by rewrite Ht0.
Qed.

(** The step of the feature file, started by its hook. *)
Lemma X10_AfterStep_finds_start_time_witness :
  ∃ t0,
    InMemory.startTimes
      (InMemoryHooks.fire_all pretty
         [InMemoryHooks.HBeforeScenario "Login";
          InMemoryHooks.HBeforeStep (mkStep 1 "I perform an action") 10]
         (InitializeScenario, InMemory.NewVectorClockAgent)).2
      !! "Login-I perform an action-1"
    = Some t0.
Proof.
  destruct (X10_AfterStep_finds_start_time pretty
    [InMemoryHooks.HBeforeScenario "Login";
     InMemoryHooks.HBeforeStep (mkStep 1 "I perform an action") 10]
    InMemory.NewVectorClockAgent (mkStep 1 "I perform an action") 150000010
    "Login-I perform an action-1") as (t0 & H & _).
  - by vm_compute.
  - by exists t0.
Defined.

(** X11.  The hooks end a step once.  Whatever the runner fires on the
    variables of a new [InitializeScenario], with at most 2^64
    [stepCtx.Before] hooks, the identifiers passed to [End] are pairwise
    distinct: the overwriting that a repeated [End] causes does not arise
    through the hooks. *)
Theorem X11_hooks_end_each_step_once
    (Duration_String : Z → string) (hs : list InMemoryHooks.Hook)
    (v : InMemory.VectorClockAgent) :
  (InMemoryHooks.befores hs ≤ 2 ^ 64)%N →
  NoDup (InMemoryHooks.ended Duration_String hs (InitializeScenario, v)).
Proof.
  intros Hle. apply hk_ended_spec.
  - intros a b x Hx. cbn in Hx. by rewrite lookup_empty in Hx.
  - intros a x Hx. cbn in Hx. by rewrite lookup_empty in Hx.
  - apply im_returned_NoDup. by rewrite hk_calls_starts.
Qed.

(** The same step object run twice, its after-hook fired once too often. *)
Lemma X11_hooks_end_each_step_once_witness :
  NoDup (InMemoryHooks.ended pretty
           [InMemoryHooks.HBeforeScenario "Login";
            InMemoryHooks.HBeforeStep (mkStep 1 "I perform an action") 10;
            InMemoryHooks.HAfterStep (mkStep 1 "I perform an action") 20;
            InMemoryHooks.HAfterStep (mkStep 1 "I perform an action") 30;
            InMemoryHooks.HBeforeStep (mkStep 1 "I perform an action") 40;
            InMemoryHooks.HAfterStep (mkStep 1 "I perform an action") 50]
           (InitializeScenario, InMemory.NewVectorClockAgent)).
Proof.
  apply X11_hooks_end_each_step_once. vm_compute. discriminate.
Defined.

(** X12.  [stepCtx.After] forgets the step it ends: fired again for the same
    step, with no [stepCtx.Before] in between, it finds no identifier,
    prints [Step ID not found ...] and leaves the closure and the agent as
    they are. *)
Theorem X12_AfterStep_twice
    (Duration_String : Z → string) (step : Step) (now now' : Z)
    (w : Closure * InMemory.VectorClockAgent) (stepID : string) :
  stepIDs w.1 !! addr step = Some stepID →
  let after := (InMemoryHooks.AfterStep Duration_String step now w).1 in
  stepIDs after.1 !! addr step = None
  ∧ InMemoryHooks.AfterStep Duration_String step now' after
    = (after, ["Step ID not found for step: " +:+ Text step +:+ Go.nl]).
Proof.
  destruct w as [c v]. cbn [fst snd]. intros Hid. cbv zeta.
  rewrite (hk_AfterStep_Some _ _ _ _ _ stepID) by done. cbn [fst snd stepIDs].
  split; [apply lookup_delete_eq|].
  apply hk_AfterStep_None. cbn [stepIDs]. apply lookup_delete_eq.
Qed.

(** The after-hook of the step fired twice. *)
Lemma X12_AfterStep_twice_witness :
  stepIDs
    (InMemoryHooks.AfterStep pretty (mkStep 1 "I perform an action") 20
       (InMemoryHooks.BeforeStep (mkStep 1 "I perform an action") 10
          (InitializeScenario, InMemory.NewVectorClockAgent))).1.1 !! 1%positive
  = None.
Proof.
  apply (X12_AfterStep_twice pretty (mkStep 1 "I perform an action") 20 30
           (InMemoryHooks.BeforeStep (mkStep 1 "I perform an action") 10
              (InitializeScenario, InMemory.NewVectorClockAgent))
           "-I perform an action-1").
  by vm_compute.
Defined.

(** X13.  The hooks measure a step from its [stepCtx.Before] to its
    [stepCtx.After].  Let the before-hook of a step read the clock at [t0],
    let hooks of other steps (fewer than 2^64 before-hooks) follow, and let
    the after-hook of the step read the clock at [t1], the clock not having
    gone back.  Then the agent holds the duration [t1 - t0] under the
    identifier made from the scenario name of the closure, the text of the
    step and the next counter value, the closure has forgotten the step, and
    the one line [Step ... took ...] is printed. *)
Theorem X13_hooks_measure_a_step
    (Duration_String : Z → string) (c : Closure) (v : InMemory.VectorClockAgent)
    (step : Step) (t0 t1 : Z) (between : list InMemoryHooks.Hook) :
  (∀ h, h ∈ between → InMemoryHooks.hook_addr h ≠ Some (addr step)) →
  (InMemoryHooks.befores between < 2 ^ 64)%N →
  0 ≤ t0 → t0 ≤ t1 → t1 < 2 ^ 63 →
  let stepID :=
    scenarioName c +:+ "-" +:+ Text step +:+ "-"
      +:+ pretty (Go.atomic_AddUint64 (InMemory.counter v) 1) in
  let after :=
    InMemoryHooks.AfterStep Duration_String step t1
      (InMemoryHooks.fire_all Duration_String between
         (InMemoryHooks.BeforeStep step t0 (c, v))) in
  InMemory.durations after.1.2 !! stepID = Some (t1 - t0)
  ∧ stepIDs after.1.1 !! addr step = None
  ∧ after.2 = ["Step '" +:+ stepID +:+ "' took "
                 +:+ Duration_String (t1 - t0) +:+ Go.nl].
Proof.
  intros Hbetween Hlap Ht0 Ht1 Hmax. cbv zeta.
  set (stepID := scenarioName c +:+ "-" +:+ Text step +:+ "-"
                   +:+ pretty (Go.atomic_AddUint64 (InMemory.counter v) 1)).
  set (started := InMemory.Start (scenarioName c) (Text step) t0 v).
  assert (started.1 = stepID) as Hid by reflexivity.
  assert (InMemoryHooks.BeforeStep step t0 (c, v)
          = (mkClosure (scenarioName c) (<[addr step := stepID]> (stepIDs c)),
             started.2)) as -> by reflexivity.
  pose proof (hk_stepIDs_untouched Duration_String between
    (mkClosure (scenarioName c) (<[addr step := stepID]> (stepIDs c)), started.2)
    (addr step) Hbetween) as Hheld.
  cbn [fst stepIDs] in Hheld. rewrite lookup_insert_eq in Hheld.
  pose proof (hk_agent_run Duration_String between
    (mkClosure (scenarioName c) (<[addr step := stepID]> (stepIDs c)))
    started.2) as Hagent.
  assert (InMemory.startTimes
            (InMemoryHooks.fire_all Duration_String between
               (mkClosure (scenarioName c) (<[addr step := stepID]> (stepIDs c)),
                started.2)).2 !! stepID = Some t0) as Hstart.
  { rewrite Hagent. unfold started in *. rewrite im_run_startTimes_other.
    - rewrite im_Start_startTimes, Hid. apply lookup_insert_eq.
    - rewrite <-Hid. apply im_Start_id_not_returned. by rewrite hk_calls_starts. }
  destruct (InMemoryHooks.fire_all Duration_String between _) as [c' v'].
  cbn [fst snd] in Hheld, Hstart.
  rewrite (hk_AfterStep_Some _ _ _ _ _ stepID) by done. cbn [fst snd stepIDs].
  unfold InMemory.End. rewrite Hstart. cbn [fst snd InMemory.durations].
  unfold Go.Since. rewrite subMono_exact by lia.
  split_and!; [apply lookup_insert_eq|apply lookup_delete_eq|done].
Qed.

(** The step of the feature file takes 150 ms while another step runs. *)
Lemma X13_hooks_measure_a_step_witness :
  InMemory.durations
    (InMemoryHooks.AfterStep pretty (mkStep 1 "I perform an action") 150000010
       (InMemoryHooks.fire_all pretty
          [InMemoryHooks.HBeforeStep (mkStep 2 "I wait") 20;
           InMemoryHooks.HAfterStep (mkStep 2 "I wait") 30]
          (InMemoryHooks.BeforeStep (mkStep 1 "I perform an action") 10
             (mkClosure "Login" ∅, InMemory.NewVectorClockAgent)))).1.2
    !! "Login-I perform an action-1"
  = Some (150000010 - 10).
Proof.
  apply (X13_hooks_measure_a_step pretty (mkClosure "Login" ∅)
           InMemory.NewVectorClockAgent (mkStep 1 "I perform an action")
           10 150000010
           [InMemoryHooks.HBeforeStep (mkStep 2 "I wait") 20;
            InMemoryHooks.HAfterStep (mkStep 2 "I wait") 30]).
  - intros h [->|[->|H%elem_of_nil]%elem_of_cons]%elem_of_cons;
      [discriminate..|done].
  - by vm_compute.
  - lia.
  - lia.
  - lia.
Defined.

(** X14.  No ended step is lost.  After any sequence of hooks on the
    variables of a new [InitializeScenario] and a new agent, the identifiers
    with a duration are exactly those the hooks passed to [End], and with at
    most 2^64 [stepCtx.Before] hooks the number of durations is the number of
    [End] calls the hooks made. *)
Theorem X14_one_duration_per_ended_step
    (Duration_String : Z → string) (hs : list InMemoryHooks.Hook) :
  let w0 := (InitializeScenario, InMemory.NewVectorClockAgent) in
  (∀ x, is_Some (InMemory.durations
                   (InMemoryHooks.fire_all Duration_String hs w0).2 !! x)
        ↔ x ∈ InMemoryHooks.ended Duration_String hs w0)
  ∧ ((InMemoryHooks.befores hs ≤ 2 ^ 64)%N →
     size (InMemory.durations (InMemoryHooks.fire_all Duration_String hs w0).2)
     = length (InMemoryHooks.ended Duration_String hs w0)).
Proof.
  cbv zeta.
  assert (dom (InMemory.durations
                 (InMemoryHooks.fire_all Duration_String hs
                    (InitializeScenario, InMemory.NewVectorClockAgent)).2)
          = list_to_set (InMemoryHooks.ended Duration_String hs
                           (InitializeScenario, InMemory.NewVectorClockAgent)))
    as Hdom.
  { rewrite hk_durations_dom.
    - cbn [snd InMemory.durations InMemory.NewVectorClockAgent].
      by rewrite dom_empty_L, (left_id_L ∅ (∪)).
    - intros a x Hx. cbn in Hx. by rewrite lookup_empty in Hx. }
  split.
  - intros x. rewrite <-elem_of_dom, Hdom. apply elem_of_list_to_set.
  - intros Hle. rewrite <-size_dom, Hdom. apply size_list_to_set.
    apply hk_ended_spec.
    + intros a b x Hx. cbn in Hx. by rewrite lookup_empty in Hx.
    + intros a x Hx. cbn in Hx. by rewrite lookup_empty in Hx.
    + apply im_returned_NoDup. by rewrite hk_calls_starts.
Qed.

(** Two steps run one after the other. *)
Lemma X14_one_duration_per_ended_step_witness :
  size (InMemory.durations
          (InMemoryHooks.fire_all pretty
             [InMemoryHooks.HBeforeScenario "Login";
              InMemoryHooks.HBeforeStep (mkStep 1 "I perform an action") 10;
              InMemoryHooks.HAfterStep (mkStep 1 "I perform an action") 20;
              InMemoryHooks.HBeforeStep (mkStep 2 "I perform an action") 30;
              InMemoryHooks.HAfterStep (mkStep 2 "I perform an action") 40]
             (InitializeScenario, InMemory.NewVectorClockAgent)).2)
  = 2%nat.
Proof.
  apply (proj2 (X14_one_duration_per_ended_step pretty
    [InMemoryHooks.HBeforeScenario "Login";
     InMemoryHooks.HBeforeStep (mkStep 1 "I perform an action") 10;
     InMemoryHooks.HAfterStep (mkStep 1 "I perform an action") 20;
     InMemoryHooks.HBeforeStep (mkStep 2 "I perform an action") 30;
     InMemoryHooks.HAfterStep (mkStep 2 "I perform an action") 40])).
  vm_compute. discriminate.
Defined.

(** X15.  The hooks of the SQLite version persist a step.  When the
    before-hook and then the after-hook of a step fire, the identifier has no
    row yet, the write runs and the clock has not gone back, the table gains
    one row: it carries the identifier, and in its own columns the scenario
    name and the step text the identifier was made from, with the duration
    in whole milliseconds.  The map holds the exact duration, the closure
    has forgotten the step, and nothing is printed. *)
Theorem X15_sqlite_hooks_persist_a_step
    (c : Closure) (v : Sqlite.VectorClockAgent) (step : Step) (t0 t1 : Z)
    (drv : Sqlite.Driver) :
  let stepID :=
    scenarioName c +:+ "-" +:+ Text step +:+ "-"
      +:+ pretty (Go.atomic_AddUint64 (Sqlite.counter v) 1) in
  stepID ∉ Sqlite.step_id <$> Sqlite.step_timings (Sqlite.db v) →
  Sqlite.failure drv = None →
  0 ≤ t0 → t0 ≤ t1 → t1 < 2 ^ 63 →
  let after :=
    SqliteHooks.AfterStep step t1 drv (SqliteHooks.BeforeStep step t0 (c, v)) in
  Sqlite.step_timings (Sqlite.db after.1.2)
  = Sqlite.step_timings (Sqlite.db v)
      ++ [Sqlite.mkRow (Sqlite.sqlite_sequence (Sqlite.db v) + 1) stepID
            (scenarioName c) (Text step) ((t1 - t0) ÷ 1000000)
            (Sqlite.CURRENT_TIMESTAMP drv)]
  ∧ Sqlite.durations after.1.2 !! stepID = Some (t1 - t0)
  ∧ stepIDs after.1.1 !! addr step = None
  ∧ after.2 = [].
Proof.
  cbv zeta. intros Hnin Hf Ht0 Ht1 Hmax.
  set (stepID := scenarioName c +:+ "-" +:+ Text step +:+ "-"
                   +:+ pretty (Go.atomic_AddUint64 (Sqlite.counter v) 1)) in *.
  set (started := Sqlite.Start (scenarioName c) (Text step) t0 v).
  assert (started.1 = stepID) as Hid by reflexivity.
  assert (SqliteHooks.BeforeStep step t0 (c, v)
          = (mkClosure (scenarioName c) (<[addr step := stepID]> (stepIDs c)),
             started.2)) as -> by reflexivity.
  unfold SqliteHooks.AfterStep. cbn [fst snd stepIDs scenarioName].
  rewrite lookup_insert_eq. cbn [fst snd stepIDs].
  rewrite sq_End_db, sq_End_durations, sq_End_output.
  assert (Sqlite.startTimes started.2 !! stepID = Some t0) as ->.
  { unfold started in *. rewrite sq_Start_startTimes, Hid. apply lookup_insert_eq. }
  assert (Sqlite.db started.2 = Sqlite.db v) as -> by reflexivity.
  rewrite insert_absent by done. cbn [fst snd Sqlite.step_timings].
  unfold Go.Since, Go.Milliseconds. rewrite subMono_exact by lia.
  split_and!; [done|apply lookup_insert_eq|apply lookup_delete_eq|done].
Qed.

(** The step of the feature file on an empty table. *)
Lemma X15_sqlite_hooks_persist_a_step_witness :
  Sqlite.step_timings
    (Sqlite.db
       (SqliteHooks.AfterStep (mkStep 1 "I perform an action") 150000010
          (Sqlite.mkDriver None "2024-05-01 10:00:00")
          (SqliteHooks.BeforeStep (mkStep 1 "I perform an action") 10
             (mkClosure "Login" ∅,
              Sqlite.mkAgent ∅ ∅ 0 (Sqlite.mkDB [] 0)))).1.2)
  = [] ++ [Sqlite.mkRow (0 + 1) "Login-I perform an action-1" "Login"
             "I perform an action" ((150000010 - 10) ÷ 1000000)
             "2024-05-01 10:00:00"].
Proof.
  apply (X15_sqlite_hooks_persist_a_step (mkClosure "Login" ∅)
           (Sqlite.mkAgent ∅ ∅ 0 (Sqlite.mkDB [] 0))
           (mkStep 1 "I perform an action") 10 150000010
           (Sqlite.mkDriver None "2024-05-01 10:00:00")).
  - vm_compute. intros H. by apply elem_of_nil in H.
  - reflexivity.
  - lia.
  - lia.
  - lia.
Defined.
